(** * bup-cron: lock file, snapshot lifecycle and run orchestrator

    A shallow embedding of [bup_cron/__init__.py]: the classes [Bup],
    [Snapshot], [NoSnapshot], [LvmSnapshot] and [Pidfile], and the
    functions [make_dirs_helper], [process], [bail] and [main].

    Python code that raises, mutates an object or talks to the operating
    system is written in a small state-and-exception monad.  The operating
    system and the external programs are an explicit [World]: the files,
    descriptors, directories, mounts and block devices the code touches,
    the log of the commands it runs, and an [Env] of what it can only
    observe (how a command ends, whether a process is alive, which
    operation is denied).

    Not embedded: argument parsing, logging and timing, which decide
    nothing here; [VssSnapshot], which only exists under Cygwin; the
    bodies of [find_mountpoint], [find_device] and [find_vg_lv], which read
    the mount table and the output of [lvs] and appear as queries of the
    [Env]; and the subprocesses of [BupCronMetaData], of which only the
    possibility to raise is kept. *)

From Stdlib Require Import String Ascii ZArith List Bool Lia Permutation DecimalString
  DecimalPos.
Import ListNotations.
Local Open Scope string_scope.
Local Open Scope list_scope.
Local Open Scope Z_scope.

(* ================================================================== *)
(** * Python strings *)

Notation "a +s+ b" := (String.append a b) (at level 60, right associativity).

(** [sub in s] for strings. *)
Fixpoint contains (sub s : string) : bool :=
  String.prefix sub s ||
  match s with
  | EmptyString => false
  | String _ s' => contains sub s'
  end.

(** [s.replace(old, new)] where [old] and [new] are one character long. *)
Fixpoint replace_char (old new : ascii) (s : string) : string :=
  match s with
  | EmptyString => EmptyString
  | String c s' => String (if Ascii.eqb c old then new else c) (replace_char old new s')
  end.

(** [s.split(sep)] where [sep] is one character long. *)
Fixpoint split_char (sep : ascii) (s : string) : list string :=
  match s with
  | EmptyString => [EmptyString]
  | String c s' =>
      if Ascii.eqb c sep then EmptyString :: split_char sep s'
      else match split_char sep s' with
           | h :: t => String c h :: t
           | [] => [String c EmptyString]
           end
  end.

(** [s.lower()] on ASCII. *)
Definition lower_char (c : ascii) : ascii :=
  let n := nat_of_ascii c in
  if (Nat.leb 65 n && Nat.leb n 90)%bool then ascii_of_nat (n + 32) else c.

Fixpoint lower (s : string) : string :=
  match s with
  | EmptyString => EmptyString
  | String c s' => String (lower_char c) (lower s')
  end.

(** Truth value of a string that may be [None]. *)
Definition truthy (o : option string) : bool :=
  match o with
  | Some s => negb (String.eqb s "")
  | None => false
  end.

(** [str(n)] for an integer. *)
Definition str (z : Z) : string := NilZero.string_of_int (Z.to_int z).

(** ** [int(s)] on ASCII text: optional surrounding white space, an optional
    sign, decimal digits that single underscores may separate. *)

Definition is_space (c : ascii) : bool :=
  let n := nat_of_ascii c in
  (Nat.eqb n 32 || (Nat.leb 9 n && Nat.leb n 13) || (Nat.leb 28 n && Nat.leb n 31))%bool.

Definition is_digit (c : ascii) : bool :=
  let n := nat_of_ascii c in (Nat.leb 48 n && Nat.leb n 57)%bool.

Definition digit_val (c : ascii) : Z := Z.of_nat (nat_of_ascii c) - 48.

Fixpoint lstrip (s : string) : string :=
  match s with
  | String c s' => if is_space c then lstrip s' else s
  | EmptyString => EmptyString
  end.

Fixpoint rstrip (s : string) : string :=
  match s with
  | String c s' =>
      match rstrip s' with
      | EmptyString => if is_space c then EmptyString else String c EmptyString
      | r => String c r
      end
  | EmptyString => EmptyString
  end.

Fixpoint digits (acc : Z) (after_underscore : bool) (s : string) : option Z :=
  match s with
  | EmptyString => if after_underscore then None else Some acc
  | String c s' =>
      if is_digit c then digits (10 * acc + digit_val c) false s'
      else if Ascii.eqb c "_" then
             if after_underscore then None else digits acc true s'
           else None
  end.

Definition unsigned (s : string) : option Z :=
  match s with
  | String c _ => if is_digit c then digits 0 false s else None
  | EmptyString => None
  end.

Definition int (s : string) : option Z :=
  match rstrip (lstrip s) with
  | String "-" s' => option_map Z.opp (unsigned s')
  | String "+" s' => unsigned s'
  | s' => unsigned s'
  end.

(** [pattern % args] restricted to the conversions [%s] and [%%]; [None]
    stands for the [TypeError] or [ValueError] Python raises otherwise. *)
Fixpoint format (pattern : string) (args : list string) : option string :=
  match pattern with
  | EmptyString => match args with [] => Some EmptyString | _ => None end
  | String c rest =>
      if Ascii.eqb c "%" then
        match rest with
        | String d rest' =>
            if Ascii.eqb d "s" then
              match args with
              | a :: args' => option_map (String.append a) (format rest' args')
              | [] => None
              end
            else if Ascii.eqb d "%" then option_map (String "%") (format rest' args)
            else None
        | EmptyString => None
        end
      else option_map (String c) (format rest args)
  end.

(** [os.path.join(a, b)] on POSIX. *)
Definition ends_with_slash (s : string) : bool :=
  match String.get (String.length s - 1) s with
  | Some c => Ascii.eqb c "/"
  | None => false
  end.

Definition path_join (a b : string) : string :=
  if String.prefix "/" b then b
  else if (String.eqb a "" || ends_with_slash a)%bool then a +s+ b
  else a +s+ "/" +s+ b.

(* ================================================================== *)
(** * Exceptions and the monad *)

Inductive errno :=
| EEXIST | EACCES | ENOENT | ESRCH | EPERM | ECHILD | EBADF | EINVAL | EROFS | EIO.

Definition errno_eqb (a b : errno) : bool :=
  match a, b with
  | EEXIST, EEXIST | EACCES, EACCES | ENOENT, ENOENT | ESRCH, ESRCH
  | EPERM, EPERM | ECHILD, ECHILD | EBADF, EBADF | EINVAL, EINVAL
  | EROFS, EROFS | EIO, EIO => true
  | _, _ => false
  end.

(** What [ProcessRunningException] carries as [pid]: the integer [_check]
    returned, or the raw text of the lock file. *)
Inductive pidinfo :=
| PidInt (pid : Z)
| PidText (raw : string).

Inductive exn :=
| OSError (e : errno)
| ValueError
| TypeError
| AttributeError
| NameError
| OverflowError
| CalledProcessError
| SystemExit (status : Z)
| ProcessRunningException (path : string) (pid : pidinfo).

Inductive res (A : Type) :=
| Ok (a : A)
| Raise (e : exn).
Arguments Ok {A} a.
Arguments Raise {A} e.

(** A computation over a state [S]: the state survives an exception. *)
Definition M (S A : Type) : Type := S -> res A * S.

Definition ret {S A} (a : A) : M S A := fun s => (Ok a, s).

Definition raise {S A} (e : exn) : M S A := fun s => (Raise e, s).

Definition bind {S A B} (c : M S A) (k : A -> M S B) : M S B :=
  fun s =>
    match c s with
    | (Ok a, s') => k a s'
    | (Raise e, s') => (Raise e, s')
    end.

Notation "x <- c ;; k" := (bind c (fun x => k))
  (at level 61, c at next level, right associativity).
Notation "c ;; k" := (bind c (fun _ => k))
  (at level 61, right associativity).

(** [try: c  except: handler(e)]; the handler re-raises what it does not
    catch. *)
Definition try_except {S A} (c : M S A) (handler : exn -> M S A) : M S A :=
  fun s =>
    match c s with
    | (Ok a, s') => (Ok a, s')
    | (Raise e, s') => handler e s'
    end.

(** [with manager as x: body].  [__exit__] is not called when [__enter__]
    raises; an exception of the body is swallowed when [__exit__] returns
    true, and the statement then has no value. *)
Definition with_ {S A B} (enter : M S A) (exit : option exn -> M S bool)
    (body : A -> M S B) : M S (option B) :=
  x <- enter ;;
  fun s =>
    match body x s with
    | (Ok b, s') => (_ <- exit None ;; ret (Some b)) s'
    | (Raise e, s') =>
        (swallow <- exit (Some e) ;;
         if swallow : bool then ret None else raise e) s'
    end.

(** A method of an object [O]: the state is the object and the world. *)
Definition self {O W} : M (O * W) O := fun s => (Ok (fst s), s).

Definition set_self {O W} (f : O -> O) : M (O * W) unit :=
  fun s => (Ok tt, (f (fst s), snd s)).

Definition world {O W} : M (O * W) W := fun s => (Ok (snd s), s).

Definition lift {O W A} (c : M W A) : M (O * W) A :=
  fun s => let '(r, w) := c (snd s) in (r, (fst s, w)).

(* ================================================================== *)
(** * The operating system *)

(** How a call of [subprocess.check_call] ends: exit status zero, a
    non-zero exit status ([CalledProcessError]), or the program could not
    be started ([OSError]). *)
Inductive proc_result :=
| Exit0
| ExitFail
| SpawnFail (e : errno).

(** A command line. *)
Abbreviation command := (list string) (only parsing).

(** What the program only observes. *)
Record Env := mkEnv {
  getpid : Z;
  hostname : string;
  (** [os.path.exists("/proc/%d" % pid)] *)
  proc_entry : Z -> bool;
  (** [os.kill(pid, 0)]: [None] when the call returns *)
  kill_probe : Z -> option exn;
  (** creating or removing a name fails with this error *)
  write_fault : string -> option errno;
  (** opening a file for reading fails with this error *)
  read_fault : string -> option errno;
  (** [os.wait()]: [None] when a child was reaped *)
  wait_fault : option errno;
  (** the outcome of an external command, given the commands run so far *)
  cmd_run : list command -> command -> proc_result;
  (** [BupCronMetaData]: the exception its next operation raises *)
  stats_fault : list command -> option exn;
  (** the system queries of [LvmSnapshot] *)
  find_mountpoint : string -> option string;
  find_device : string -> option string;
  find_vg_lv : string -> option (string * string);
  relpath : string -> string -> string
}.

(** What the program changes. *)
Record World := mkWorld {
  env : Env;
  (** regular files and their text *)
  files : string -> option string;
  (** open file descriptors and the file each one writes to *)
  fds : list (Z * string);
  dirs : list string;
  mounts : list string;
  blkdevs : list string;
  (** [os.path.exists(os.environ["BUP_DIR"])] *)
  bup_dir : bool;
  (** the commands passed to [subprocess.check_call], oldest first *)
  log : list command
}.

Definition set_files f w :=
  mkWorld (env w) f (fds w) (dirs w) (mounts w) (blkdevs w) (bup_dir w) (log w).
Definition set_fds x w :=
  mkWorld (env w) (files w) x (dirs w) (mounts w) (blkdevs w) (bup_dir w) (log w).
Definition set_dirs x w :=
  mkWorld (env w) (files w) (fds w) x (mounts w) (blkdevs w) (bup_dir w) (log w).
Definition set_mounts x w :=
  mkWorld (env w) (files w) (fds w) (dirs w) x (blkdevs w) (bup_dir w) (log w).
Definition set_blkdevs x w :=
  mkWorld (env w) (files w) (fds w) (dirs w) (mounts w) x (bup_dir w) (log w).
Definition set_bup_dir x w :=
  mkWorld (env w) (files w) (fds w) (dirs w) (mounts w) (blkdevs w) x (log w).
Definition set_log x w :=
  mkWorld (env w) (files w) (fds w) (dirs w) (mounts w) (blkdevs w) (bup_dir w) x.

Definition mem (s : string) (l : list string) : bool := existsb (String.eqb s) l.

Definition del (s : string) (l : list string) : list string :=
  filter (fun x => negb (String.eqb s x)) l.

Definition upd (f : string -> option string) (p : string) (v : option string)
    : string -> option string :=
  fun q => if String.eqb q p then v else f q.

(** ** Files *)

(** [open(path, "r").read()] *)
Definition open_read (path : string) : M World string :=
  fun w =>
    match files w path with
    | None => (Raise (OSError ENOENT), w)
    | Some text =>
        match read_fault (env w) path with
        | Some e => (Raise (OSError e), w)
        | None => (Ok text, w)
        end
    end.

(** The lowest descriptor that is not open. *)
Fixpoint lowest_free (fuel : nat) (n : Z) (open : list Z) : Z :=
  match fuel with
  | O => n
  | S fuel' => if existsb (Z.eqb n) open then lowest_free fuel' (n + 1) open else n
  end.

Definition next_fd (w : World) : Z :=
  lowest_free (length (fds w)) 0 (map fst (fds w)).

(** [os.open(path, os.O_CREAT | os.O_WRONLY | os.O_EXCL)] *)
Definition os_open_excl (path : string) : M World Z :=
  fun w =>
    match files w path with
    | Some _ => (Raise (OSError EEXIST), w)
    | None =>
        match write_fault (env w) path with
        | Some e => (Raise (OSError e), w)
        | None =>
            let fd := next_fd w in
            (Ok fd, set_fds ((fd, path) :: fds w) (set_files (upd (files w) path (Some "")) w))
        end
    end.

(** [os.remove(path)] *)
Definition os_remove (path : string) : M World unit :=
  fun w =>
    match files w path with
    | None => (Raise (OSError ENOENT), w)
    | Some _ =>
        match write_fault (env w) path with
        | Some e => (Raise (OSError e), w)
        | None => (Ok tt, set_files (upd (files w) path None) w)
        end
    end.

Fixpoint fd_path (fd : Z) (l : list (Z * string)) : option string :=
  match l with
  | [] => None
  | (n, p) :: l' => if Z.eqb n fd then Some p else fd_path fd l'
  end.

(** [os.write(fd, data)]; a file that was unlinked meanwhile is written
    to without a visible effect. *)
Definition os_write (fd : Z) (data : string) : M World unit :=
  fun w =>
    match fd_path fd (fds w) with
    | None => (Raise (OSError EBADF), w)
    | Some path =>
        match files w path with
        | Some text => (Ok tt, set_files (upd (files w) path (Some (text +s+ data))) w)
        | None => (Ok tt, w)
        end
    end.

(** [os.close(fd)] *)
Definition os_close (fd : Z) : M World unit :=
  fun w =>
    match fd_path fd (fds w) with
    | None => (Raise (OSError EBADF), w)
    | Some _ => (Ok tt, set_fds (filter (fun x => negb (Z.eqb (fst x) fd)) (fds w)) w)
    end.

(** ** Processes *)

(** [os.kill(pid, 0)] *)
Definition os_kill0 (pid : Z) : M World unit :=
  fun w =>
    match kill_probe (env w) pid with
    | Some e => (Raise e, w)
    | None => (Ok tt, w)
    end.

(** [os.wait()] *)
Definition os_wait : M World unit :=
  fun w =>
    match wait_fault (env w) with
    | Some e => (Raise (OSError e), w)
    | None => (Ok tt, w)
    end.

(** ** Directories, mounts and devices *)

Definition ismount (m : string) (w : World) : bool := mem m (mounts w).

(** [os.makedirs(path)] *)
Definition os_makedirs (path : string) : M World unit :=
  fun w =>
    if (mem path (dirs w) || mem path (blkdevs w))%bool then (Raise (OSError EEXIST), w)
    else match files w path with
         | Some _ => (Raise (OSError EEXIST), w)
         | None =>
             match write_fault (env w) path with
             | Some e => (Raise (OSError e), w)
             | None => (Ok tt, set_dirs (path :: dirs w) w)
             end
         end.

(** [os.removedirs(path)]: the leaf is removed unless something is mounted
    on it; the parents it would prune are not tracked. *)
Definition os_removedirs (path : string) : M World unit :=
  fun w =>
    if negb (mem path (dirs w)) then (Raise (OSError ENOENT), w)
    else if ismount path w then (Raise (OSError EPERM), w)
    else (Ok tt, set_dirs (del path (dirs w)) w).

(** [stat.S_ISBLK(os.stat(path).st_mode)] *)
Definition stat_isblk (path : string) : M World bool :=
  fun w =>
    if mem path (blkdevs w) then (Ok true, w)
    else if mem path (dirs w) then (Ok false, w)
    else match files w path with
         | Some _ => (Ok false, w)
         | None => (Raise (OSError ENOENT), w)
         end.

(** ** External commands *)

Definition starts (c : command) (prog : string) : bool :=
  match c with
  | p :: _ => String.eqb p prog
  | [] => false
  end.

(** The change a command makes when it exits with status zero. *)
Definition cmd_effect (c : command) (w : World) : World :=
  if starts c "umount" then
    match c with
    | [_; m] => set_mounts (del m (mounts w)) w
    | _ => w
    end
  else if starts c "mount" then
    match c with
    | [_; _; _; _; m] => set_mounts (m :: mounts w) w
    | _ => w
    end
  else if starts c "lvremove" then
    match c with
    | _ :: _ :: device :: _ => set_blkdevs (del device (blkdevs w)) w
    | _ => w
    end
  else if starts c "lvcreate" then
    match c with
    | _ :: _ :: _ :: _ :: _ :: _ :: _ :: name :: origin :: _ =>
        match find_vg_lv (env w) origin with
        | Some (vg, _) => set_blkdevs (("/dev/" +s+ vg +s+ "/" +s+ name) :: blkdevs w) w
        | None => w
        end
    | _ => w
    end
  else if (starts c "bup" && starts (tl c) "init")%bool then set_bup_dir true w
  else w.

(** [GlobalLogger.check_call]: false when the command fails, true
    otherwise. *)
Definition check_call (cmd : command) : M World bool :=
  fun w =>
    let w' := set_log (log w ++ [cmd]) w in
    match cmd_run (env w) (log w) cmd with
    | Exit0 => (Ok true, cmd_effect cmd w')
    | ExitFail => (Ok false, w')
    | SpawnFail e => (Raise (OSError e), w')
    end.

(** [make_dirs_helper]: true if the directory was created, false if it
    was already there. *)
Definition make_dirs_helper (path : string) : M World bool :=
  try_except (os_makedirs path ;; ret true)
    (fun ex =>
       match ex with
       | OSError e =>
           w <- (fun w => (Ok w, w)) ;;
           if (negb (errno_eqb e EEXIST) || negb (mem path (dirs w)))%bool
           then raise ex else ret false
       | _ => raise ex
       end).

(* ================================================================== *)
(** * [class Bup] *)

Module Bup.

Definition init (remote_rep : option string) : M World bool :=
  let cmd := ["bup"; "init"] in
  let cmd := if truthy remote_rep
             then cmd ++ ["-r"; match remote_rep with Some r => r | None => "" end]
             else cmd in
  check_call cmd.

Definition clear_index : M World bool :=
  check_call ["bup"; "index"; "--clear"].

(** The command line of [bup fsck] before its mode option; a remote
    address that is not [host:path] cannot be unpacked. *)
Definition fsck_base (verbose : Z) (remote_rep : option string) : res command :=
  match
    (if truthy remote_rep then
       match split_char ":" (match remote_rep with Some r => r | None => "" end) with
       | [addr; path] => Ok ["ssh"; addr; "bup"; "-d"; path; "fsck"]
       | _ => Raise ValueError
       end
     else Ok ["bup"; "fsck"])
  with
  | Ok base_cmd => Ok (if 3 <=? verbose then base_cmd ++ ["--verbose"] else base_cmd)
  | Raise e => Raise e
  end.

Definition fsck (verbose : Z) (remote_rep : option string) (parity repair : bool)
    : M World bool :=
  match fsck_base verbose remote_rep with
  | Raise e => raise e
  | Ok base_cmd =>
      if parity then
        ok <- check_call (base_cmd ++ ["--par2-ok"]) ;;
        if negb ok then ret false
        else check_call (base_cmd ++ ["--generate"])
      else if repair then check_call (base_cmd ++ ["--repair"])
      else check_call (base_cmd ++ ["--quick"])
  end.

Definition index_cmd (verbose : Z) (path : string)
    (excludes excludes_rx excludes_from excludes_rx_from : list string)
    (one_file_system : bool) : command :=
  ["bup"; "index"]
  ++ (if 3 <=? verbose then ["--verbose"] else [])
  ++ map (fun ex => "--exclude=" +s+ ex) excludes
  ++ map (fun ex => "--exclude-rx=" +s+ ex) excludes_rx
  ++ map (fun ex => "--exclude-from=" +s+ ex) excludes_from
  ++ map (fun ex => "--exclude-rx-from=" +s+ ex) excludes_rx_from
  ++ (if one_file_system then ["--one-file-system"] else [])
  ++ [path].

Definition index (verbose : Z) (path : string)
    (excludes excludes_rx excludes_from excludes_rx_from : list string)
    (one_file_system : bool) : M World bool :=
  check_call (index_cmd verbose path excludes excludes_rx excludes_from
                excludes_rx_from one_file_system).

Definition save_cmd (verbose : Z) (paths : list string) (branch graft : string)
    (remote_rep : option string) : command :=
  ["bup"; "save"]
  ++ (if verbose <=? 0 then ["--quiet"]
      else if 3 <=? verbose then ["--verbose"] else [])
  ++ (if truthy remote_rep
      then ["-r"; match remote_rep with Some r => r | None => "" end] else [])
  ++ ["--name"; branch]
  ++ (if contains "=" graft then ["--graft"; graft] else ["--strip-path"; graft])
  ++ (if 2 <=? verbose then ["--tree"; "--commit"] else [])
  ++ paths.

Definition save (verbose : Z) (paths : list string) (branch graft : string)
    (remote_rep : option string) : M World bool :=
  check_call (save_cmd verbose paths branch graft remote_rep).

End Bup.

(* ================================================================== *)
(** * [class Snapshot] and its subclasses *)

Module Snapshot.

(** The subclasses defined on a platform that is not Cygwin, in the
    order of their definition. *)
Inductive cls :=
| NoSnapshot
| LvmSnapshot.

Definition cls_name (c : cls) : string :=
  match c with
  | NoSnapshot => "NoSnapshot"
  | LvmSnapshot => "LvmSnapshot"
  end.

Definition subclasses : list cls := [NoSnapshot; LvmSnapshot].

Record t := mk {
  cls_of : cls;
  src_path : string;
  path : string;
  size : string;
  verbose : Z;
  mountpattern : string;
  (** if the snapshot has been created *)
  exists_ : bool;
  (** [None] also stands for [False] and for the attribute not set *)
  vg_lv : option (string * string)
}.

Definition set_path x s :=
  mk (cls_of s) (src_path s) x (size s) (verbose s) (mountpattern s) (exists_ s) (vg_lv s).
Definition set_exists x s :=
  mk (cls_of s) (src_path s) (path s) (size s) (verbose s) (mountpattern s) x (vg_lv s).
Definition set_vg_lv x s :=
  mk (cls_of s) (src_path s) (path s) (size s) (verbose s) (mountpattern s) (exists_ s) x.

Definition default_mountpattern : string := "/media/bup/%s-%s".

(** [cls(path, size, log, warn, verbose, call, mountpattern)] *)
Definition new (c : cls) (path size : string) (verbose : Z)
    (mountpattern : option string) : t :=
  mk c path path size verbose
     (match mountpattern with Some m => m | None => default_mountpattern end)
     false None.

(** [Snapshot.select(name)] *)
Definition select (name : string) : res cls :=
  match find (fun c => contains (lower name) (lower (cls_name c))) subclasses with
  | Some c => Ok c
  | None => Raise TypeError
  end.

End Snapshot.

Module LvmSnapshot.
Import Snapshot.

Definition snapname : M (t * World) string :=
  s <- self ;;
  match vg_lv s with
  | Some (_, lv) => ret ("snap" +s+ lv)
  | None => raise TypeError
  end.

Definition mountpoint : M (t * World) string :=
  s <- self ;;
  match vg_lv s with
  | Some (vg, lv) =>
      match format (mountpattern s) [vg; lv] with
      | Some m => ret m
      | None => raise TypeError
      end
  | None => raise TypeError
  end.

Definition device : M (t * World) string :=
  s <- self ;;
  match vg_lv s with
  | Some (vg, _) => name <- snapname ;; ret ("/dev/" +s+ vg +s+ "/" +s+ name)
  | None => raise TypeError
  end.

Definition verbosity_flags (v : Z) : command :=
  (if v <=? 0 then ["--quiet"] else []) ++ (if 3 <=? v then ["--verbose"] else []).

(** [LvmSnapshot.cleanup(force)] *)
Definition cleanup (force : bool) : M (t * World) unit :=
  s <- self ;;
  if (negb (exists_ s) && negb force)%bool then ret tt
  else
    set_self (set_exists false) ;;
    m <- mountpoint ;;
    try_except (lift os_wait)
      (fun e => match e with OSError ECHILD => ret tt | _ => raise e end) ;;
    w <- world ;;
    (if ismount m w then _ <- lift (check_call ["umount"; m]) ;; ret tt else ret tt) ;;
    try_except (lift (os_removedirs m)) (fun _ => ret tt) ;;
    device <- device ;;
    try_except
      (let cmd := ["lvremove"; "--force"; device] ++ verbosity_flags (verbose s) in
       blk <- lift (stat_isblk device) ;;
       if blk : bool then _ <- lift (check_call cmd) ;; ret tt else ret tt)
      (fun e => match e with OSError _ => ret tt | _ => raise e end).

(** [LvmSnapshot.__enter__] *)
Definition __enter__ : M (t * World) unit :=
  set_self (set_vg_lv None) ;;
  s <- self ;;
  w <- world ;;
  let mountpoint_ := find_mountpoint (env w) (path s) in
  if truthy mountpoint_ then
    let mountpoint_ := match mountpoint_ with Some m => m | None => "" end in
    let device_ := find_device (env w) mountpoint_ in
    (if truthy device_
     then set_self (set_vg_lv
                      (find_vg_lv (env w) (match device_ with Some d => d | None => "" end)))
     else ret tt) ;;
    s <- self ;;
    if (truthy device_ && match vg_lv s with Some _ => true | None => false end)%bool then
      cleanup true ;;
      name <- snapname ;;
      let cmd := ["lvcreate"; "--size"; size s; "--snapshot"; "--permission"; "r";
                  "--name"; name; match device_ with Some d => d | None => "" end]
                 ++ verbosity_flags (verbose s) in
      ok <- lift (check_call cmd) ;;
      if ok : bool then
        m <- mountpoint ;;
        _ <- lift (make_dirs_helper m) ;;
        set_self (set_exists true) ;;
        d <- device ;;
        m <- mountpoint ;;
        ok <- lift (check_call ["mount"; "-o"; "ro"; d; m]) ;;
        if ok : bool then
          let rel := relpath (env w) (path s) mountpoint_ in
          m <- mountpoint ;;
          set_self (set_path (path_join m rel))
        else cleanup false
      else ret tt
    else ret tt
  else ret tt.

End LvmSnapshot.

(** Method resolution on a snapshot object. *)

Definition snapshot_cleanup : M (Snapshot.t * World) unit :=
  s <- self ;;
  match Snapshot.cls_of s with
  | Snapshot.NoSnapshot => ret tt
  | Snapshot.LvmSnapshot => LvmSnapshot.cleanup false
  end.

Definition snapshot_enter : M (Snapshot.t * World) Snapshot.t :=
  s <- self ;;
  match Snapshot.cls_of s with
  | Snapshot.NoSnapshot => ret tt
  | Snapshot.LvmSnapshot => LvmSnapshot.__enter__
  end ;;
  self.

(** [Snapshot.__exit__(t, e, tb)]: false to raise, true to pass. *)
Definition snapshot_exit (ty : option exn) : M (Snapshot.t * World) bool :=
  snapshot_cleanup ;;
  set_self (Snapshot.set_exists false) ;;
  ret (match ty with None => true | Some _ => false end).

(* ================================================================== *)
(** * [class Pidfile] *)

Module Pidfile.

(** The attribute [pidfd]: not set, [None], or a file descriptor. *)
Inductive attr :=
| Unset
| PyNone
| Fd (n : Z).

Record t := mk {
  pidfile : string;
  pidfd : attr
}.

Definition set_pidfd x (s : t) := mk (pidfile s) x.

Definition new (path : string) : t := mk path Unset.

(** What [_check] returns: [False], a pid, or nothing. *)
Inductive checked :=
| RFalse
| RNone
| RPid (pid : Z).

Definition is_true (c : checked) : bool :=
  match c with
  | RPid pid => negb (pid =? 0)
  | _ => false
  end.

(** [Pidfile._check] *)
Definition _check : M (t * World) checked :=
  s <- self ;;
  pidstr <- lift (open_read (pidfile s)) ;;
  match int pidstr with
  | None => ret RFalse
  | Some pid =>
      w <- world ;;
      if proc_entry (env w) pid then ret (RPid pid)
      else
        try_except (lift (os_kill0 pid) ;; ret (RPid pid))
          (fun e =>
             match e with
             | OSError ESRCH => ret RFalse
             | OSError EPERM => ret (RPid pid)
             | OSError _ => ret RNone
             | _ => raise e
             end)
  end.

(** [Pidfile.remove] *)
Definition remove : M (t * World) unit :=
  s <- self ;;
  lift (os_remove (pidfile s)).

(** [Pidfile.create] *)
Definition create : M (t * World) unit :=
  s <- self ;;
  try_except
    (fd <- lift (os_open_excl (pidfile s)) ;; set_self (set_pidfd (Fd fd)))
    (fun e =>
       match e with
       | OSError EEXIST =>
           pid <- _check ;;
           if is_true pid then
             set_self (set_pidfd PyNone) ;;
             raise (ProcessRunningException (pidfile s)
                      (PidInt match pid with RPid p => p | _ => 0 end))
           else
             try_except
               (lift (os_remove (pidfile s)) ;;
                fd <- lift (os_open_excl (pidfile s)) ;;
                set_self (set_pidfd (Fd fd)))
               (fun e' =>
                  match e' with
                  | OSError EACCES =>
                      raw <- lift (open_read (pidfile s)) ;;
                      raise (ProcessRunningException (pidfile s) (PidText raw))
                  | OSError _ => ret tt
                  | _ => raise e'
                  end)
       | _ => raise e
       end) ;;
  s <- self ;;
  w <- world ;;
  match pidfd s with
  | Unset => raise AttributeError
  | PyNone => raise TypeError
  | Fd fd =>
      lift (os_write fd (str (getpid (env w)))) ;;
      lift (os_close fd)
  end.

(** [Pidfile.__enter__] *)
Definition __enter__ : M (t * World) t :=
  create ;; self.

(** [Pidfile.__exit__(t, e, tb)]: false to raise, true to pass. *)
Definition __exit__ (ty : option exn) : M (t * World) bool :=
  match ty with
  | None => remove ;; ret true
  | Some (ProcessRunningException _ _) => ret false
  | Some _ =>
      s <- self ;;
      match pidfd s with
      | Unset => raise AttributeError
      | PyNone => ret tt
      | Fd fd => if fd =? 0 then ret tt else remove
      end ;;
      ret false
  end.

End Pidfile.

(* ================================================================== *)
(** * The run *)

(** The parsed arguments, as [ArgumentConfigParser.parse_args] hands them
    over; a list option that was not given is the empty list. *)
Module Args.
Record t := mk {
  paths : list string;
  name : option string;
  branch_name : option string;
  remote : option string;
  exclude : list string;
  exclude_rx : list string;
  exclude_from : list string;
  exclude_rx_from : list string;
  clear : bool;
  parity : bool;
  check : bool;
  repair : bool;
  snapshot : string;
  size : string;
  mountpoint : option string;
  stats : bool;
  verbose : Z;
  debug : bool;
  pidfile : string
}.
End Args.

(** An operation of [BupCronMetaData]: it runs its own subprocesses, which
    may raise. *)
Definition stats_call : M World unit :=
  fun w =>
    match stats_fault (env w) (log w) with
    | Some e => (Raise e, w)
    | None => (Ok tt, w)
    end.

(** The branch a path is saved under. *)
Definition branch_for (args : Args.t) (host : string) (snapshot : Snapshot.t) : string :=
  if truthy (Args.branch_name args)
  then match Args.branch_name args with Some b => b | None => "" end
  else (if truthy (Args.name args)
        then match Args.name args with Some n => n | None => "" end
        else host)
       +s+ "-" +s+ replace_char "/" "_" (Snapshot.src_path snapshot).

(** The verification step of [process]: [args.check and not Bup.fsck(...)],
    then the second [Bup.fsck]. *)
Definition verify (args : Args.t) (success : bool) : M World bool :=
  let v := Args.verbose args in
  if Args.check args then
    ok <- Bup.fsck v (Args.remote args) false (Args.repair args) ;;
    if negb ok then
      ok <- Bup.fsck v (Args.remote args) false false ;;
      ret (if negb ok then false else success)
    else ret success
  else ret success.

(** The body of the [with] statement of [process], for one path; it
    returns the value of [success] at its end. *)
Definition path_body (args : Args.t) (success : bool) (snapshot : Snapshot.t)
    : M World bool :=
  let v := Args.verbose args in
  ok <- Bup.index v (Snapshot.path snapshot) (Args.exclude args) (Args.exclude_rx args)
          (Args.exclude_from args) (Args.exclude_rx_from args) true ;;
  if negb ok then ret false
  else
    w <- (fun w => (Ok w, w)) ;;
    let branch := branch_for args (hostname (env w)) snapshot in
    ok <- Bup.save v [Snapshot.path snapshot] branch (Snapshot.path snapshot)
            (Args.remote args) ;;
    let success := if negb ok then false else success in
    success <- verify args success ;;
    (if Args.parity args
     then _ <- Bup.fsck v (Args.remote args) true false ;; ret tt
     else ret tt) ;;
    (if Args.stats args then stats_call else ret tt) ;;
    ret success.

(** One turn of the loop of [process]. *)
Definition process_path (args : Args.t) (path : string) (success : bool)
    : M World bool :=
  match Snapshot.select (Args.snapshot args) with
  | Raise e => raise e
  | Ok c =>
      fun w =>
        let snapshot :=
          Snapshot.new c path (Args.size args) (Args.verbose args) (Args.mountpoint args) in
        let '(r, (_, w')) :=
          with_ snapshot_enter snapshot_exit
            (fun snapshot => lift (path_body args success snapshot)) (snapshot, w) in
        (match r with
         | Ok (Some b) => Ok b
         | Ok None => Ok success
         | Raise e => Raise e
         end, w')
  end.

Fixpoint process_loop (args : Args.t) (paths : list string) (success : bool)
    : M World bool :=
  match paths with
  | [] => ret success
  | path :: rest =>
      success <- process_path args path success ;;
      process_loop args rest success
  end.

(** [process(args)]: the main processing loop. *)
Definition process (args : Args.t) : M World bool :=
  (if Args.stats args then stats_call else ret tt) ;;
  process_loop args (Args.paths args) true.

(** [bail(status, timer, msg)] *)
Definition bail {A} (status : Z) : M World A := raise (SystemExit status).

(** The [try] block of [main]. *)
Definition main_try (args : Args.t) : M World bool :=
  w <- (fun w => (Ok w, w)) ;;
  initialised <-
    (if negb (bup_dir w) then
       ok <- Bup.init (Args.remote args) ;;
       (if negb ok then bail 3 else ret tt) ;;
       ret true
     else ret false) ;;
  fun w =>
    let '(r, (_, w')) :=
      with_ Pidfile.__enter__ Pidfile.__exit__
        (fun _ =>
           (if (Args.clear args && negb initialised)%bool then
              ok <- lift Bup.clear_index ;;
              (* [logging.warninging] does not exist *)
              if negb ok then raise AttributeError else ret tt
            else ret tt) ;;
           lift (process args))
        (Pidfile.new (Args.pidfile args), w) in
    (match r with
     | Ok (Some success) => Ok success
     | Ok None => Raise NameError
     | Raise e => Raise e
     end, w').

(** [main()] after the arguments are parsed and the logger is set up. *)
Definition main (args : Args.t) : M World unit :=
  r <- try_except (success <- main_try args ;; ret (Some success))
         (fun e =>
            match e with
            | SystemExit _ => ret None     (* [except SystemExit: return] *)
            | _ => raise e                 (* [except: raise] *)
            end) ;;
  match r with
  | None => ret tt
  | Some success => if success : bool then bail 0 else bail 1
  end.

(** The exit status of the interpreter that ran [main()]. *)
Definition exit_status (r : res unit) : Z :=
  match r with
  | Ok _ => 0
  | Raise (SystemExit status) => status
  | Raise _ => 1
  end.

Definition run (args : Args.t) (w : World) : Z := exit_status (fst (main args w)).


(* ================================================================== *)
(** * Concrete systems and arguments *)

(** The path of the lock file in these runs. *)
Definition lock_path : string := "/repo/.bup-cron.pid".

Definition std_fds : list (Z * string) :=
  [(0, "/dev/stdin"); (1, "/dev/stdout"); (2, "/dev/stderr")].

(** A host named [myhost] without LVM, where no process holds a lock,
    nothing is denied and [run] decides how commands end. *)
Definition plain_env (run : list command -> command -> proc_result) : Env :=
  mkEnv 4242 "myhost" (fun _ => false) (fun _ => Some (OSError ESRCH))
        (fun _ => None) (fun _ => None) (Some ECHILD) run
        (fun _ => None) (fun _ => None) (fun _ => None) (fun _ => None) (fun p _ => p).

Definition plain_world (e : Env) (repository : bool) : World :=
  mkWorld e (fun _ => None) std_fds [] [] [] repository [].

Definition plain_args (paths : list string) (check repair : bool) : Args.t :=
  Args.mk paths (Some "myhost") None None [] [] [] [] false false check repair
          "NO" "1GB" (Some "/media/bup/%s-%s") false 0 false lock_path.

(** Every command succeeds. *)
Definition all_ok : list command -> command -> proc_result := fun _ _ => Exit0.

(** Every command fails. *)
Definition all_fail : list command -> command -> proc_result := fun _ _ => ExitFail.

(** No program can be started. *)
Definition no_programs : list command -> command -> proc_result :=
  fun _ _ => SpawnFail ENOENT.

(** The [n]-th command of the run (counted from zero) fails, the others
    succeed. *)
Definition fails_at (n : nat) : list command -> command -> proc_result :=
  fun history _ => if Nat.eqb (length history) n then ExitFail else Exit0.

(** The commands from the [n]-th on fail, the earlier ones succeed. *)
Definition fails_from (n : nat) : list command -> command -> proc_result :=
  fun history _ => if Nat.leb n (length history) then ExitFail else Exit0.

(** A host whose [/home] is the logical volume [vg0/home]. *)
Definition lvm_env (run : list command -> command -> proc_result) : Env :=
  mkEnv 4242 "myhost" (fun _ => false) (fun _ => Some (OSError ESRCH))
        (fun _ => None) (fun _ => None) (Some ECHILD) run
        (fun _ => None) (fun _ => Some "/home") (fun _ => Some "/dev/vg0/home")
        (fun _ => Some ("vg0", "home")) (fun _ _ => ".").

Definition lvm_world (e : Env) : World :=
  mkWorld e (fun _ => None) std_fds [] ["/home"] ["/dev/vg0/home"] true [].

(** The snapshot of [/home] is created and mounted, and then no command
    succeeds any more. *)
Definition entered : Snapshot.t * World :=
  snd (snapshot_enter
         (Snapshot.new Snapshot.LvmSnapshot "/home" "1GB" 0 None,
          lvm_world (lvm_env (fails_from 2)))).

(** The same, on a host where every command succeeds. *)
Definition entered_ok : Snapshot.t * World :=
  snd (snapshot_enter
         (Snapshot.new Snapshot.LvmSnapshot "/home" "1GB" 0 None,
          lvm_world (lvm_env all_ok))).

(** A system whose lock file holds [text]. *)
Definition locked_world (e : Env) (text : string) : World :=
  mkWorld e (fun p => if String.eqb p lock_path then Some text else None)
          std_fds [] [] [] true [].

(** As [plain_env], but no name can be created or removed: the directory
    of the lock file is not writable. *)
Definition denied_env : Env :=
  mkEnv 4242 "myhost" (fun _ => false) (fun _ => Some (OSError ESRCH))
        (fun _ => Some EACCES) (fun _ => None) (Some ECHILD) all_ok
        (fun _ => None) (fun _ => None) (fun _ => None) (fun _ => None) (fun p _ => p).

(** As [plain_env], but the zero signal reaches every process. *)
Definition alive_env : Env :=
  mkEnv 4242 "myhost" (fun _ => false) (fun _ => None)
        (fun _ => None) (fun _ => None) (Some ECHILD) all_ok
        (fun _ => None) (fun _ => None) (fun _ => None) (fun _ => None) (fun p _ => p).

(** A process started with its standard input closed. *)
Definition no_stdin_world (e : Env) : World :=
  mkWorld e (fun _ => None) [(1, "/dev/stdout"); (2, "/dev/stderr")] [] [] [] true [].

(** The arguments of a run with LVM snapshots and the default mount
    pattern. *)
Definition lvm_args (paths : list string) : Args.t :=
  Args.mk paths (Some "myhost") None None [] [] [] [] false false false false
          "LVM" "1GB" None false 0 false lock_path.


(* ================================================================== *)
(** * The vocabulary of the properties *)

(** [keeps R c]: the state [c] ends in is related by [R] to the one it
    started in, whether [c] returns or raises. *)
Definition keeps {S A} (R : S -> S -> Prop) (c : M S A) : Prop :=
  forall s, R s (snd (c s)).

(** A relation on worlds, seen from a method of an object. *)
Definition on_world {O} (R : World -> World -> Prop) : O * World -> O * World -> Prop :=
  fun s s' => R (snd s) (snd s').

(** A relation on objects, seen from a method. *)
Definition on_object {O W} (Q : O -> O -> Prop) : O * W -> O * W -> Prop :=
  fun s s' => Q (fst s) (fst s').

(** The object of a method stays as it is. *)
Definition same_object {O W} : O * W -> O * W -> Prop := on_object (fun o o' => o' = o).

(** A snapshot object changes in its flag [exists] at most. *)
Definition same_snapshot (o o' : Snapshot.t) : Prop :=
  Snapshot.set_exists false o' = Snapshot.set_exists false o.

(** [grows w w']: the run from [w] to [w'] only added commands to the log. *)
Definition grows (w w' : World) : Prop := exists cmds, log w' = log w ++ cmds.

(** [adds P w w']: from [w] to [w'] the log only gained commands, each of
    which satisfies [P]. *)
Definition adds (P : command -> Prop) (w w' : World) : Prop :=
  exists cmds, log w' = log w ++ cmds /\ Forall P cmds.

(** A command that is not one of [bup]. *)
Definition not_bup (c : command) : Prop := starts c "bup" = false.

(** The flag [success] is only carried along: a turn started with any
    value of it does what the turn started with [True] does, and ends with
    the conjunction. *)
Definition with_flag (s : bool) (r : res bool) : res bool :=
  match r with
  | Ok b => Ok (s && b)%bool
  | Raise e => Raise e
  end.

(** The flags of the paths, each taken by a turn started with [True], in
    the world the turns before it left. *)
Fixpoint path_flags (args : Args.t) (paths : list string) : M World (list bool) :=
  match paths with
  | [] => ret []
  | path :: rest =>
      b <- process_path args path true ;;
      bs <- path_flags args rest ;;
      ret (b :: bs)
  end.

Definition all_true (s : bool) (r : res (list bool)) : res bool :=
  match r with
  | Ok bs => Ok (s && forallb (fun b => b) bs)%bool
  | Raise e => Raise e
  end.

(** Every program can be started: no command ends in [OSError]. *)
Definition starts_all (e : Env) : Prop :=
  forall history cmd err, cmd_run e history cmd <> SpawnFail err.

(* ================================================================== *)
(** * Further vocabulary *)

(** The value of a decimal numeral read from the left, after the digits
    that gave [acc]. *)
Fixpoint horner (acc : Z) (d : Decimal.uint) : Z :=
  match d with
  | Decimal.Nil => acc
  | Decimal.D0 d => horner (10 * acc) d
  | Decimal.D1 d => horner (10 * acc + 1) d
  | Decimal.D2 d => horner (10 * acc + 2) d
  | Decimal.D3 d => horner (10 * acc + 3) d
  | Decimal.D4 d => horner (10 * acc + 4) d
  | Decimal.D5 d => horner (10 * acc + 5) d
  | Decimal.D6 d => horner (10 * acc + 6) d
  | Decimal.D7 d => horner (10 * acc + 7) d
  | Decimal.D8 d => horner (10 * acc + 8) d
  | Decimal.D9 d => horner (10 * acc + 9) d
  end.

(** No character of the string is white space. *)
Fixpoint no_space (s : string) : bool :=
  match s with
  | EmptyString => true
  | String c s' => (negb (is_space c) && no_space s')%bool
  end.

(** [holds I Q c]: started in a state where [I] holds, [c] ends in a state
    where [I] holds, whether it returns or raises, and raises only
    exceptions that satisfy [Q]. *)
Definition holds {S A} (I : S -> Prop) (Q : exn -> Prop) (c : M S A) : Prop :=
  forall s, I s -> I (snd (c s)) /\ (forall e, fst (c s) = Raise e -> Q e).

(** The command lines [process] can hand to [check_call]: those of
    [LvmSnapshot], and [bup index] with a path, [bup save] and [bup fsck],
    the last also through [ssh]. *)
Definition process_command (c : command) : bool :=
  match c with
  | prog :: rest =>
      (String.eqb prog "lvcreate" || String.eqb prog "mount" || String.eqb prog "umount"
       || String.eqb prog "lvremove"
       || (String.eqb prog "bup"
           && match rest with
              | sub :: rest' =>
                  (String.eqb sub "index" && Nat.leb 2 (length rest'))
                  || String.eqb sub "save" || String.eqb sub "fsck"
              | [] => false
              end)
       || (String.eqb prog "ssh"
           && match rest with
              | _ :: b :: d :: _ :: f :: _ =>
                  String.eqb b "bup" && String.eqb d "-d" && String.eqb f "fsck"
              | _ => false
              end))%bool
  | [] => false
  end.

(** An exception other than [ProcessRunningException]. *)
Definition not_lock_held (e : exn) : Prop :=
  match e with
  | ProcessRunningException _ _ => False
  | _ => True
  end.

(** As [plain_env], on a file system mounted read-only. *)
Definition readonly_env : Env :=
  mkEnv 4242 "myhost" (fun _ => false) (fun _ => Some (OSError ESRCH))
        (fun _ => Some EROFS) (fun _ => None) (Some ECHILD) all_ok
        (fun _ => None) (fun _ => None) (fun _ => None) (fun _ => None) (fun p _ => p).

(** [same_files w0 w]: the environment, the files and the open descriptors
    of [w] are those of [w0]. *)
Definition same_files (w0 w : World) : Prop :=
  env w = env w0 /\ files w = files w0 /\ fds w = fds w0.

(** [ran_only w0 w]: the log of [w] is the log of [w0] followed by commands
    that are all among those of [process]. *)
Definition ran_only (w0 w : World) : Prop :=
  exists cmds, log w = log w0 ++ cmds /\ Forall (fun c => process_command c = true) cmds.

(** The arguments of a run with [--clear]. *)
Definition clear_args : Args.t :=
  Args.mk ["/home"] (Some "myhost") None None [] [] [] [] true false false false
          "NO" "1GB" (Some "/media/bup/%s-%s") false 0 false lock_path.

(** The arguments with [--parity] given or not. *)
Definition set_parity (x : bool) (a : Args.t) : Args.t :=
  Args.mk (Args.paths a) (Args.name a) (Args.branch_name a) (Args.remote a)
          (Args.exclude a) (Args.exclude_rx a) (Args.exclude_from a)
          (Args.exclude_rx_from a) (Args.clear a) x (Args.check a) (Args.repair a)
          (Args.snapshot a) (Args.size a) (Args.mountpoint a) (Args.stats a)
          (Args.verbose a) (Args.debug a) (Args.pidfile a).

(** [s.count(c)] for a character [c]. *)
Fixpoint count_char (c : ascii) (s : string) : nat :=
  match s with
  | EmptyString => 0
  | String c' s' => (if Ascii.eqb c' c then 1 else 0) + count_char c s'
  end.

(** The arguments of a run with [--parity]. *)
Definition parity_args : Args.t := set_parity true (plain_args ["/home"] false false).

(* ================================================================== *)
(** * Properties *)

(** ** The monad and the log *)

Ltac unfold_monad :=
  cbv beta iota delta [bind ret raise try_except lift self set_self world with_ bail].

Tactic Notation "red_monad" :=
  cbv beta iota delta [bind ret raise try_except lift self set_self world fst snd].
Tactic Notation "red_monad" "in" hyp(H) :=
  cbv beta iota delta [bind ret raise try_except lift self set_self world fst snd] in H.

Lemma cmd_effect_log (c : command) (w : World) : log (cmd_effect c w) = log w.
Proof.
  unfold cmd_effect.
  repeat match goal with
         | |- context [if ?b then _ else _] => destruct b
         | |- context [match ?x with _ => _ end] => destruct x
         end; reflexivity.
Qed.

Lemma cmd_effect_env (c : command) (w : World) : env (cmd_effect c w) = env w.
Proof.
  unfold cmd_effect.
  repeat match goal with
         | |- context [if ?b then _ else _] => destruct b
         | |- context [match ?x with _ => _ end] => destruct x
         end; reflexivity.
Qed.

Lemma check_call_log (cmd : command) (w : World) :
  log (snd (check_call cmd w)) = log w ++ [cmd].
Proof.
  unfold check_call.
  destruct (cmd_run (env w) (log w) cmd); simpl; try reflexivity.
  now rewrite cmd_effect_log.
Qed.

Lemma check_call_result (cmd : command) (w : World) :
  fst (check_call cmd w) =
  match cmd_run (env w) (log w) cmd with
  | Exit0 => Ok true
  | ExitFail => Ok false
  | SpawnFail e => Raise (OSError e)
  end.
Proof. unfold check_call. now destruct (cmd_run (env w) (log w) cmd). Qed.


Lemma grows_refl w : grows w w.
Proof. exists []. now rewrite app_nil_r. Qed.

Lemma grows_trans w1 w2 w3 : grows w1 w2 -> grows w2 w3 -> grows w1 w3.
Proof.
  intros [c1 H1] [c2 H2]. exists (c1 ++ c2). now rewrite H2, H1, app_assoc.
Qed.

Lemma check_call_grows cmd w : grows w (snd (check_call cmd w)).
Proof. exists [cmd]. apply check_call_log. Qed.

Create HintDb grows.
#[local] Hint Resolve grows_refl check_call_grows : grows.

Lemma check_call_grows' cmd w r w' : check_call cmd w = (r, w') -> grows w w'.
Proof. intros H. change w' with (snd (r, w')). rewrite <- H. apply check_call_grows. Qed.

Lemma fsck_grows v remote parity repair w :
  grows w (snd (Bup.fsck v remote parity repair w)).
Proof.
  unfold Bup.fsck. destruct (Bup.fsck_base v remote) as [base|e]; [|apply grows_refl].
  destruct parity; [|destruct repair; apply check_call_grows].
  unfold_monad.
  destruct (check_call (base ++ ["--par2-ok"]) w) as [[[|]|e] w1] eqn:E1; simpl;
    try (eapply check_call_grows'; eassumption).
  eapply grows_trans; [eapply check_call_grows'; eassumption | apply check_call_grows].
Qed.

Lemma fsck_grows' v remote parity repair w r w' :
  Bup.fsck v remote parity repair w = (r, w') -> grows w w'.
Proof. intros H. change w' with (snd (r, w')). rewrite <- H. apply fsck_grows. Qed.

Lemma verify_grows args success w : grows w (snd (verify args success w)).
Proof.
  unfold verify. destruct (Args.check args); [|apply grows_refl].
  unfold_monad.
  destruct (Bup.fsck _ _ false (Args.repair args) w) as [[[|]|e] w1] eqn:E1; simpl;
    try (eapply fsck_grows'; eassumption).
  destruct (Bup.fsck _ _ false false w1) as [[b|e] w2] eqn:E2; simpl;
    (eapply grows_trans; [eapply fsck_grows'; eassumption | eapply fsck_grows'; eassumption]).
Qed.

Lemma stats_call_same w : snd (stats_call w) = w.
Proof. unfold stats_call. now destruct (stats_fault (env w) (log w)). Qed.

(** What follows the save in [path_body] only adds to the log. *)
Lemma after_save_grows args success w :
  grows w (snd ((success <- verify args success ;;
                 (if Args.parity args
                  then _ <- Bup.fsck (Args.verbose args) (Args.remote args) true false ;; ret tt
                  else ret tt) ;;
                 (if Args.stats args then stats_call else ret tt) ;;
                 ret success) w)).
Proof.
  unfold_monad.
  pose proof (verify_grows args success w) as Hv.
  destruct (verify args success w) as [[b|e] w1]; simpl in *; [|assumption].
  eapply grows_trans; [eassumption|].
  destruct (Args.parity args).
  - pose proof (fsck_grows (Args.verbose args) (Args.remote args) true false w1) as Hf.
    destruct (Bup.fsck _ _ true false w1) as [[b'|e] w2]; simpl in *; [|assumption].
    eapply grows_trans; [eassumption|].
    destruct (Args.stats args); [|apply grows_refl].
    pose proof (stats_call_same w2) as Hs.
    destruct (stats_call w2) as [[[]|e] w3]; simpl in *; subst; apply grows_refl.
  - destruct (Args.stats args); [|apply grows_refl].
    pose proof (stats_call_same w1) as Hs.
    destruct (stats_call w1) as [[[]|e] w3]; simpl in *; subst; apply grows_refl.
Qed.

(** ** [Bup.save]: graft or strip *)

(** C7.  Whatever the graft argument of [Bup.save] is, the command handed to
    [check_call] carries it right after the branch name, behind [--graft]
    when it contains the separator [=] and behind [--strip-path] when it
    does not; only the options [--tree --commit] may stand between it and
    the paths. *)
Theorem save_graft_or_strip (v : Z) (paths : list string) (branch graft : string)
    (remote : option string) (w : World) :
  exists opts post,
    log (snd (Bup.save v paths branch graft remote w)) =
      log w ++ [["bup"; "save"] ++ opts
                ++ ["--name"; branch;
                    if contains "=" graft then "--graft" else "--strip-path"; graft]
                ++ post ++ paths]
    /\ (post = [] \/ post = ["--tree"; "--commit"]).
Proof.
  unfold Bup.save. rewrite check_call_log. unfold Bup.save_cmd.
  exists ((if v <=? 0 then ["--quiet"] else if 3 <=? v then ["--verbose"] else [])
          ++ (if truthy remote
              then ["-r"; match remote with Some r => r | None => "" end] else [])),
         (if 2 <=? v then ["--tree"; "--commit"] else []).
  split.
  - f_equal. f_equal. rewrite <- !app_assoc. simpl.
    destruct (contains "=" graft); reflexivity.
  - destruct (2 <=? v); auto.
Qed.

(** ** A path without snapshot *)

(** With the class [NoSnapshot], a turn of the loop is the body of the
    [with] statement on the path itself. *)
Lemma process_path_NoSnapshot args path success w :
  Snapshot.select (Args.snapshot args) = Ok Snapshot.NoSnapshot ->
  process_path args path success w =
  path_body args success
    (Snapshot.new Snapshot.NoSnapshot path (Args.size args) (Args.verbose args)
       (Args.mountpoint args)) w.
Proof.
  intros Hsel. unfold process_path. rewrite Hsel.
  unfold with_, snapshot_enter, snapshot_exit, snapshot_cleanup. unfold_monad. simpl.
  destruct (path_body args success _ w) as [[b|e] w']; reflexivity.
Qed.

(** The log of [path_body] when the index succeeds: the index command, the
    save command, then whatever verification and parity add. *)
Lemma path_body_log args success snapshot w :
  cmd_run (env w) (log w)
    (Bup.index_cmd (Args.verbose args) (Snapshot.path snapshot) (Args.exclude args)
       (Args.exclude_rx args) (Args.exclude_from args) (Args.exclude_rx_from args) true)
  = Exit0 ->
  exists rest,
    log (snd (path_body args success snapshot w)) =
    log w ++ [Bup.index_cmd (Args.verbose args) (Snapshot.path snapshot) (Args.exclude args)
                (Args.exclude_rx args) (Args.exclude_from args) (Args.exclude_rx_from args)
                true;
              Bup.save_cmd (Args.verbose args) [Snapshot.path snapshot]
                (branch_for args (hostname (env w)) snapshot) (Snapshot.path snapshot)
                (Args.remote args)] ++ rest.
Proof.
  intros Hrun. unfold path_body, Bup.index, Bup.save.
  set (icmd := Bup.index_cmd _ _ _ _ _ _ _) in *.
  unfold bind at 1.
  pose proof (check_call_log icmd w) as Hl. pose proof (check_call_result icmd w) as Hr.
  rewrite Hrun in Hr.
  assert (He : env (snd (check_call icmd w)) = env w).
  { unfold check_call. rewrite Hrun. cbn [snd]. now rewrite cmd_effect_env. }
  destruct (check_call icmd w) as [r w1]. simpl in Hl, Hr, He. subst r. simpl.
  unfold bind at 1. unfold bind at 1. rewrite He.
  set (scmd := Bup.save_cmd _ _ _ _ _).
  pose proof (check_call_log scmd w1) as Hl2.
  destruct (check_call scmd w1) as [[ok|e] w2]; simpl in Hl2.
  - destruct (after_save_grows args (if negb ok then false else success) w2) as [rest Hrest].
    exists rest. rewrite Hrest, Hl2, Hl, <- !app_assoc. reflexivity.
  - exists []. simpl. rewrite Hl2, Hl, <- !app_assoc. reflexivity.
Qed.

(** C8 as amended.  With the base name [myhost], no branch name, a class
    without snapshot and the path [/home], the second command of the turn
    is the save under the branch [myhost-_home]: base name, a dash, the
    path with [/] replaced by [_]. *)
Theorem branch_of_myhost_home (args : Args.t) (success : bool) (w : World) :
  Args.name args = Some "myhost" ->
  truthy (Args.branch_name args) = false ->
  Snapshot.select (Args.snapshot args) = Ok Snapshot.NoSnapshot ->
  cmd_run (env w) (log w)
    (Bup.index_cmd (Args.verbose args) "/home" (Args.exclude args) (Args.exclude_rx args)
       (Args.exclude_from args) (Args.exclude_rx_from args) true) = Exit0 ->
  nth_error (log (snd (process_path args "/home" success w))) (S (length (log w)))
  = Some (Bup.save_cmd (Args.verbose args) ["/home"] "myhost-_home" "/home"
            (Args.remote args)).
Proof.
  intros Hname Hbranch Hsel Hidx.
  rewrite process_path_NoSnapshot by assumption.
  destruct (path_body_log args success
              (Snapshot.new Snapshot.NoSnapshot "/home" (Args.size args)
                 (Args.verbose args) (Args.mountpoint args)) w Hidx) as [rest Hlog].
  rewrite Hlog, nth_error_app2 by lia.
  replace (S (length (log w)) - length (log w))%nat with 1%nat by lia.
  unfold branch_for. rewrite Hbranch, Hname. reflexivity.
Qed.

Lemma branch_of_myhost_home_witness :
  nth_error
    (log (snd (process_path (plain_args ["/home"] false false) "/home" true
                 (plain_world (plain_env all_ok) true)))) 1
  = Some ["bup"; "save"; "--quiet"; "--name"; "myhost-_home"; "--strip-path"; "/home";
          "/home"].
Proof.
  exact (branch_of_myhost_home (plain_args ["/home"] false false) true
           (plain_world (plain_env all_ok) true) eq_refl eq_refl eq_refl eq_refl).
Defined.

(** C8 as stated fails: the run of the scenario saves under [myhost-_home],
    and no command of the run mentions [myhost_home]. *)
Lemma branch_is_not_myhost_home :
  log (snd (process (plain_args ["/home"] false false)
              (plain_world (plain_env all_ok) true)))
  = [["bup"; "index"; "--one-file-system"; "/home"];
     ["bup"; "save"; "--quiet"; "--name"; "myhost-_home"; "--strip-path"; "/home"; "/home"]]
  /\ ~ (exists cmd,
          In cmd (log (snd (process (plain_args ["/home"] false false)
                              (plain_world (plain_env all_ok) true))))
          /\ In "myhost_home" cmd).
Proof.
  split; [reflexivity|].
  intros [cmd [Hin Hb]]. vm_compute in Hin.
  destruct Hin as [<-|[<-|[]]]; simpl in Hb;
    repeat (destruct Hb as [Hb|Hb]; [discriminate Hb|]); exact Hb.
Qed.

(** ** Properties every step of a computation keeps *)

Section Preserves.
Context {S : Type} (R : S -> S -> Prop).
Hypothesis R_refl : forall s, R s s.
Hypothesis R_trans : forall s1 s2 s3, R s1 s2 -> R s2 s3 -> R s1 s3.


Lemma keeps_ret {A} (a : A) : keeps R (ret a).
Proof. intros s. apply R_refl. Qed.

Lemma keeps_raise {A} (e : exn) : keeps R (@raise S A e).
Proof. intros s. apply R_refl. Qed.

Lemma keeps_bind {A B} (c : M S A) (k : A -> M S B) :
  keeps R c -> (forall a, keeps R (k a)) -> keeps R (bind c k).
Proof.
  intros Hc Hk s. unfold bind. specialize (Hc s).
  destruct (c s) as [[a|e] s1]; simpl in *; [|assumption].
  eapply R_trans; [eassumption | apply Hk].
Qed.

Lemma keeps_try_except {A} (c : M S A) (h : exn -> M S A) :
  keeps R c -> (forall e, keeps R (h e)) -> keeps R (try_except c h).
Proof.
  intros Hc Hh s. unfold try_except. specialize (Hc s).
  destruct (c s) as [[a|e] s1]; simpl in *; [assumption|].
  eapply R_trans; [eassumption | apply Hh].
Qed.

Lemma keeps_with {A B} (enter : M S A) (exit : option exn -> M S bool)
    (body : A -> M S B) :
  keeps R enter -> (forall t, keeps R (exit t)) -> (forall x, keeps R (body x)) ->
  keeps R (with_ enter exit body).
Proof.
  intros He Hx Hb. unfold with_. apply keeps_bind; [assumption|].
  intros x s. specialize (Hb x s).
  destruct (body x s) as [[b|e] s1]; simpl in *.
  - eapply R_trans; [eassumption|].
    apply (keeps_bind (exit None) (fun _ => ret (Some b))); [apply Hx|].
    intros _. apply keeps_ret.
  - eapply R_trans; [eassumption|].
    apply (keeps_bind (exit (Some e)) (fun swallow : bool => if swallow then ret None else raise e));
      [apply Hx|].
    intros [|]; [apply keeps_ret | apply keeps_raise].
Qed.

End Preserves.


Section OnWorld.
Context {O : Type} (R : World -> World -> Prop).
Hypothesis R_refl : forall w, R w w.

Lemma keeps_lift {A} (c : M World A) : keeps R c -> keeps (@on_world O R) (lift c).
Proof.
  intros Hc [o w]. unfold lift, on_world. simpl. specialize (Hc w).
  destruct (c w) as [r w']. exact Hc.
Qed.

Lemma keeps_self : keeps (@on_world O R) self.
Proof. intros s. apply R_refl. Qed.

Lemma keeps_set_self (f : O -> O) : keeps (@on_world O R) (set_self f).
Proof. intros s. apply R_refl. Qed.

Lemma keeps_world : keeps (@on_world O R) world.
Proof. intros s. apply R_refl. Qed.

Lemma on_world_refl : forall s : O * World, on_world R s s.
Proof. intros s. apply R_refl. Qed.

Lemma on_world_trans :
  (forall w1 w2 w3, R w1 w2 -> R w2 w3 -> R w1 w3) ->
  forall s1 s2 s3 : O * World, on_world R s1 s2 -> on_world R s2 s3 -> on_world R s1 s3.
Proof. intros Ht s1 s2 s3. apply Ht. Qed.

End OnWorld.


Lemma adds_refl P w : adds P w w.
Proof. exists []. split; [now rewrite app_nil_r | constructor]. Qed.

Lemma adds_trans P w1 w2 w3 : adds P w1 w2 -> adds P w2 w3 -> adds P w1 w3.
Proof.
  intros [c1 [H1 F1]] [c2 [H2 F2]]. exists (c1 ++ c2). split.
  - now rewrite H2, H1, app_assoc.
  - apply Forall_app. now split.
Qed.

Lemma adds_same_log P w w' : log w' = log w -> adds P w w'.
Proof. intros H. exists []. split; [now rewrite app_nil_r | constructor]. Qed.

Lemma adds_grows P w w' : adds P w w' -> grows w w'.
Proof. intros [c [H _]]. now exists c. Qed.

Lemma keeps_check_call (P : command -> Prop) cmd : P cmd -> keeps (adds P) (check_call cmd).
Proof.
  intros HP w. exists [cmd]. split; [apply check_call_log | now constructor].
Qed.

(** The system calls leave the log alone. *)
Lemma keeps_log_unchanged {A} (P : command -> Prop) (c : M World A) :
  (forall w, log (snd (c w)) = log w) -> keeps (adds P) c.
Proof. intros H w. apply adds_same_log, H. Qed.

Lemma os_wait_log w : log (snd (os_wait w)) = log w.
Proof. unfold os_wait. now destruct (wait_fault (env w)). Qed.

Lemma os_removedirs_log p w : log (snd (os_removedirs p w)) = log w.
Proof.
  unfold os_removedirs. destruct (negb (mem p (dirs w))); [reflexivity|].
  now destruct (ismount p w).
Qed.

Lemma stat_isblk_log p w : log (snd (stat_isblk p w)) = log w.
Proof.
  unfold stat_isblk. destruct (mem p (blkdevs w)); [reflexivity|].
  destruct (mem p (dirs w)); [reflexivity|]. now destruct (files w p).
Qed.

Lemma os_makedirs_log p w : log (snd (os_makedirs p w)) = log w.
Proof.
  unfold os_makedirs. destruct (mem p (dirs w) || mem p (blkdevs w))%bool; [reflexivity|].
  destruct (files w p); [reflexivity|]. now destruct (write_fault (env w) p).
Qed.

Lemma make_dirs_helper_log p w : log (snd (make_dirs_helper p w)) = log w.
Proof.
  unfold make_dirs_helper. unfold_monad.
  pose proof (os_makedirs_log p w) as H.
  destruct (os_makedirs p w) as [[[]|e] w1]; simpl in *; [assumption|].
  destruct e; try assumption.
  destruct (negb (errno_eqb e EEXIST) || negb (mem p (dirs w1)))%bool; assumption.
Qed.


Section OnObject.
Context {O W : Type} (Q : O -> O -> Prop).
Hypothesis Q_refl : forall o, Q o o.

Lemma on_object_refl : forall s : O * W, on_object Q s s.
Proof. intros s. apply Q_refl. Qed.

Lemma on_object_trans :
  (forall o1 o2 o3, Q o1 o2 -> Q o2 o3 -> Q o1 o3) ->
  forall s1 s2 s3 : O * W, on_object Q s1 s2 -> on_object Q s2 s3 -> on_object Q s1 s3.
Proof. intros Ht s1 s2 s3. apply Ht. Qed.

Lemma on_object_lift {A} (c : M W A) : keeps (on_object Q) (lift c).
Proof. intros [o w]. unfold lift, on_object. simpl. destruct (c w). apply Q_refl. Qed.

Lemma on_object_self : keeps (on_object Q) (@self O W).
Proof. intros s. apply Q_refl. Qed.

Lemma on_object_world : keeps (on_object Q) (@world O W).
Proof. intros s. apply Q_refl. Qed.

End OnObject.

Lemma on_object_set_self {O W} (Q : O -> O -> Prop) (f : O -> O) :
  (forall o, Q o (f o)) -> keeps (@on_object O W Q) (set_self f).
Proof. intros H s. apply H. Qed.



Lemma same_snapshot_refl o : same_snapshot o o.
Proof. reflexivity. Qed.

Lemma same_snapshot_trans o1 o2 o3 :
  same_snapshot o1 o2 -> same_snapshot o2 o3 -> same_snapshot o1 o3.
Proof. unfold same_snapshot. congruence. Qed.

Lemma eq_flip_trans {O} (o1 o2 o3 : O) : o2 = o1 -> o3 = o2 -> o3 = o1.
Proof. congruence. Qed.

Create HintDb keeps.
#[local] Hint Resolve adds_refl adds_trans on_world_refl on_world_trans
  on_object_refl on_object_trans same_snapshot_refl same_snapshot_trans
  eq_flip_trans : keeps.

(** Stepping through a computation: one rule per construct. *)
Ltac keeps_step :=
  first
    [ apply keeps_ret; solve [eauto with keeps]
    | apply keeps_raise; solve [eauto with keeps]
    | apply keeps_self; solve [eauto with keeps]
    | apply keeps_world; solve [eauto with keeps]
    | apply keeps_set_self; solve [eauto with keeps]
    | apply on_object_self; solve [eauto with keeps]
    | apply on_object_world; solve [eauto with keeps]
    | apply on_object_lift; solve [eauto with keeps]
    | apply on_object_set_self; intro; reflexivity
    | apply keeps_bind; [ solve [unfold same_object; eauto with keeps] | | intro ]
    | apply keeps_try_except; [ solve [unfold same_object; eauto with keeps] | | intro ]
    | apply keeps_lift
    | match goal with
      | |- keeps _ (if ?b then _ else _) => destruct b
      | |- keeps _ (match ?x with _ => _ end) => destruct x
      end ].


Lemma keeps_mountpoint P : keeps (on_world (adds P)) LvmSnapshot.mountpoint.
Proof. unfold LvmSnapshot.mountpoint. repeat keeps_step. Qed.

Lemma keeps_snapname P : keeps (on_world (adds P)) LvmSnapshot.snapname.
Proof. unfold LvmSnapshot.snapname. repeat keeps_step. Qed.

Lemma keeps_device P : keeps (on_world (adds P)) LvmSnapshot.device.
Proof.
  unfold LvmSnapshot.device. repeat keeps_step.
Qed.

(** [LvmSnapshot.cleanup] runs no [bup] command. *)
Lemma keeps_cleanup force : keeps (on_world (adds not_bup)) (LvmSnapshot.cleanup force).
Proof.
  unfold LvmSnapshot.cleanup.
  repeat first
    [ apply keeps_mountpoint | apply keeps_device
    | apply keeps_check_call; reflexivity
    | apply keeps_log_unchanged;
      first [ apply os_wait_log | apply os_removedirs_log | apply stat_isblk_log ]
    | keeps_step ].
Qed.

Lemma keeps_snapshot_exit t : keeps (on_world (adds not_bup)) (snapshot_exit t).
Proof.
  unfold snapshot_exit, snapshot_cleanup.
  repeat first [ apply keeps_cleanup | keeps_step ].
Qed.

(** ** One turn of the loop *)

(** A turn of the loop, once the snapshot is entered: the body, then
    [__exit__] on every way out of it. *)
Lemma process_path_entered args path success w c snap w1 :
  Snapshot.select (Args.snapshot args) = Ok c ->
  snapshot_enter
    (Snapshot.new c path (Args.size args) (Args.verbose args) (Args.mountpoint args), w)
  = (Ok snap, (snap, w1)) ->
  process_path args path success w =
  match path_body args success snap w1 with
  | (Ok b, w2) =>
      match snapshot_exit None (snap, w2) with
      | (Ok _, (_, w3)) => (Ok b, w3)
      | (Raise e, (_, w3)) => (Raise e, w3)
      end
  | (Raise e, w2) =>
      match snapshot_exit (Some e) (snap, w2) with
      | (Ok _, (_, w3)) => (Raise e, w3)
      | (Raise e', (_, w3)) => (Raise e', w3)
      end
  end.
Proof.
  intros Hsel Henter. unfold process_path. rewrite Hsel.
  unfold with_. unfold bind at 1. rewrite Henter. unfold lift at 1. cbn [snd fst].
  destruct (path_body args success snap w1) as [[b|e] w2].
  - unfold bind. destruct (snapshot_exit None (snap, w2)) as [[x|e] [s3 w3]]; reflexivity.
  - unfold bind.
    assert (Hfalse : forall x s, fst (snapshot_exit (Some e) s) = Ok x -> x = false).
    { intros x s. unfold snapshot_exit. unfold_monad.
      destruct (snapshot_cleanup s) as [[[]|e1] s1]; simpl; congruence. }
    specialize (Hfalse true (snap, w2)).
    destruct (snapshot_exit (Some e) (snap, w2)) as [[[|]|e'] [s3 w3]]; simpl in *;
      try reflexivity.
    discriminate (Hfalse eq_refl).
Qed.

(** What [snapshot_enter] returns is the object itself. *)
Lemma snapshot_enter_self s w r s1 w1 :
  snapshot_enter (s, w) = (Ok r, (s1, w1)) -> r = s1.
Proof.
  unfold snapshot_enter. unfold_monad. cbn [fst].
  destruct (Snapshot.cls_of s).
  - cbn. congruence.
  - destruct (LvmSnapshot.__enter__ (s, w)) as [[[]|e] [s2 w2]]; cbn; congruence.
Qed.


Ltac case_calls :=
  repeat match goal with
         | |- context [match ?c with _ => _ end] =>
             first [ destruct c as [[[|]|?] ?] | destruct c as [[?|?] ?] | destruct c ];
             cbn [fst snd with_flag]
         | |- context [if ?b then _ else _] => destruct b; cbn [fst snd with_flag]
         end.

Lemma verify_flag args s w :
  verify args s w = (with_flag s (fst (verify args true w)), snd (verify args true w)).
Proof.
  unfold verify. unfold_monad.
  destruct (Args.check args); [|cbn; now rewrite andb_true_r].
  case_calls; cbn; now rewrite ?andb_true_r, ?andb_false_r.
Qed.

Lemma path_body_flag args s snapshot w :
  path_body args s snapshot w =
  (with_flag s (fst (path_body args true snapshot w)), snd (path_body args true snapshot w)).
Proof.
  unfold path_body. unfold_monad.
  destruct (Bup.index _ _ _ _ _ _ _ w) as [[[|]|e] w1]; cbn [negb fst snd with_flag];
    [| now rewrite andb_false_r | reflexivity].
  destruct (Bup.save _ _ _ _ _ w1) as [[ok|e] w2]; cbn [fst snd with_flag];
    [|reflexivity].
  rewrite (verify_flag args (if negb ok then false else s) w2),
    (verify_flag args (if negb ok then false else true) w2).
  destruct (verify args true w2) as [[b|e] w3]; cbn [fst snd with_flag]; [|reflexivity].
  case_calls; cbn; try reflexivity; destruct ok, s, b; reflexivity.
Qed.

Lemma process_path_flag args path s w :
  process_path args path s w =
  (with_flag s (fst (process_path args path true w)), snd (process_path args path true w)).
Proof.
  unfold process_path.
  destruct (Snapshot.select (Args.snapshot args)) as [c|e]; [|reflexivity].
  unfold with_. unfold_monad.
  destruct (snapshot_enter _) as [[snap|e] [s1 w1]]; [|reflexivity].
  cbn [fst snd].
  rewrite (path_body_flag args s snap w1).
  destruct (path_body args true snap w1) as [[b|e] w2]; cbn [fst snd with_flag].
  - destruct (snapshot_exit None (s1, w2)) as [[x|e] [s3 w3]]; reflexivity.
  - destruct (snapshot_exit (Some e) (s1, w2)) as [[[|]|e'] [s3 w3]]; cbn;
      try reflexivity.
    now rewrite andb_true_r.
Qed.



Lemma process_loop_flags args paths s w :
  process_loop args paths s w =
  (all_true s (fst (path_flags args paths w)), snd (path_flags args paths w)).
Proof.
  revert s w. induction paths as [|p rest IH]; intros s w.
  - cbn. now rewrite andb_true_r.
  - cbn [process_loop path_flags]. unfold bind at 1 2 4.
    rewrite (process_path_flag args p s w).
    destruct (process_path args p true w) as [[b|e] w1]; cbn [fst snd with_flag];
      [|reflexivity].
    rewrite IH. unfold bind.
    destruct (path_flags args rest w1) as [[bs|e] w2]; cbn; [|reflexivity].
    now rewrite andb_assoc.
Qed.

(** ** The overall flag *)

Lemma path_flags_length args paths w flags w' :
  path_flags args paths w = (Ok flags, w') -> length flags = length paths.
Proof.
  revert w flags w'. induction paths as [|p rest IH]; intros w flags w'; cbn.
  - unfold ret. intros [= <- _]. reflexivity.
  - unfold_monad.
    destruct (process_path args p true w) as [[b|e] w1]; [|discriminate].
    destruct (path_flags args rest w1) as [[bs|e] w2] eqn:E; [|discriminate].
    intros [= <- _]. cbn. f_equal. eapply IH, E.
Qed.

Lemma forallb_id_true (bs : list bool) :
  forallb (fun b => b) bs = true <-> (forall b, In b bs -> b = true).
Proof. rewrite forallb_forall. reflexivity. Qed.

Lemma forallb_id_perm (bs bs' : list bool) :
  Permutation bs bs' -> forallb (fun b => b) bs = forallb (fun b => b) bs'.
Proof.
  induction 1 as [|x l l' _ IH|x y l|l l' l'' _ IH1 _ IH2]; cbn.
  - reflexivity.
  - now rewrite IH.
  - now rewrite !andb_assoc, (andb_comm y x).
  - congruence.
Qed.

(** When the [try] block of [main] yields a flag, [process] returned it. *)
Lemma main_try_returns_process args v success v' :
  main_try args v = (Ok success, v') ->
  exists v1 v2, process args v1 = (Ok success, v2).
Proof.
  unfold main_try. unfold bind at 1 2.
  match goal with
  | |- context [(if ?b then ?x else ?y) v] =>
      destruct ((if b then x else y) v) as [[initialised|e] v0]; [|discriminate]
  end.
  unfold with_. unfold bind at 1.
  destruct (Pidfile.__enter__ _) as [[p|e] [s1 v1]]; [|discriminate].
  unfold bind at 1.
  match goal with
  | |- context [(if ?b then ?x else ?y) (s1, v1)] =>
      destruct ((if b then x else y) (s1, v1)) as [[[]|e] [s2 v2]]
  end.
  - unfold lift at 1. cbn [fst snd].
    destruct (process args v2) as [[b|e] v3] eqn:Hp.
    + unfold_monad. destruct (Pidfile.__exit__ None (s2, v3)) as [[x|e] [s4 v4]];
        [|discriminate].
      intros [= <- _]. now exists v2, v3.
    + unfold_monad.
      destruct (Pidfile.__exit__ (Some e) (s2, v3)) as [[[|]|e'] [s4 v4]]; discriminate.
  - unfold_monad.
    destruct (Pidfile.__exit__ (Some e) (s2, v2)) as [[[|]|e'] [s4 v4]]; discriminate.
Qed.

(** After the [try] block of [main] yields a flag, [main] bails out with 0
    or 1. *)
Lemma run_after_try args v success v' :
  main_try args v = (Ok success, v') -> run args v = if success then 0 else 1.
Proof.
  intros H. unfold run, main. unfold_monad. rewrite H. now destruct success.
Qed.

(** C1.  When [process] returns, the flag it returns is true exactly when
    the flag of every path is true; it is the conjunction of the flags in
    any order; and a run whose [try] block ends with this flag exits with
    status 0 when it is true and 1 when it is false. *)
Theorem overall_success_is_conjunction (args : Args.t) (w : World) (success : bool)
    (w' : World) :
  process args w = (Ok success, w') ->
  (exists flags,
      path_flags args (Args.paths args) w = (Ok flags, w')
      /\ length flags = length (Args.paths args)
      /\ (success = true <-> forall b, In b flags -> b = true)
      /\ (forall flags', Permutation flags flags' ->
          success = forallb (fun b => b) flags'))
  /\ (forall v v', main_try args v = (Ok success, v') ->
      run args v = if success then 0 else 1).
Proof.
  intros Hp. split; [|intros v v'; apply run_after_try].
  unfold process in Hp. unfold bind in Hp.
  assert (Hloop : process_loop args (Args.paths args) true w = (Ok success, w')).
  { destruct (Args.stats args); [|exact Hp].
    pose proof (stats_call_same w) as Hs.
    destruct (stats_call w) as [[[]|e] w0]; [|discriminate]. simpl in Hs. now subst. }
  rewrite process_loop_flags in Hloop.
  destruct (path_flags args (Args.paths args) w) as [[flags|e] w1] eqn:Hf; [|discriminate].
  cbn in Hloop. injection Hloop as Hs Hw. subst w1.
  exists flags. split; [reflexivity|]. split; [eapply path_flags_length, Hf|]. split.
  - rewrite <- Hs. apply forallb_id_true.
  - intros flags' Hperm. rewrite <- Hs. now apply forallb_id_perm.
Qed.

(** Two paths, the index of the first fails: the flags are false and true,
    the overall flag is false and the run exits with status 1. *)
Lemma overall_success_witness :
  process (plain_args ["/home"; "/etc"] false false) (plain_world (plain_env (fails_at 0)) true)
  = (Ok false,
     snd (process (plain_args ["/home"; "/etc"] false false)
            (plain_world (plain_env (fails_at 0)) true)))
  /\ fst (path_flags (plain_args ["/home"; "/etc"] false false) ["/home"; "/etc"]
            (plain_world (plain_env (fails_at 0)) true)) = Ok [false; true]
  /\ ((exists flags,
          path_flags (plain_args ["/home"; "/etc"] false false)
            (Args.paths (plain_args ["/home"; "/etc"] false false))
            (plain_world (plain_env (fails_at 0)) true)
          = (Ok flags,
             snd (process (plain_args ["/home"; "/etc"] false false)
                    (plain_world (plain_env (fails_at 0)) true)))
          /\ length flags = length (Args.paths (plain_args ["/home"; "/etc"] false false))
          /\ (false = true <-> forall b, In b flags -> b = true)
          /\ (forall flags', Permutation flags flags' ->
              false = forallb (fun b => b) flags'))
      /\ (forall v v',
            main_try (plain_args ["/home"; "/etc"] false false) v = (Ok false, v') ->
            run (plain_args ["/home"; "/etc"] false false) v = if false then 0 else 1)).
Proof.
  split; [reflexivity|]. split; [reflexivity|].
  exact (overall_success_is_conjunction (plain_args ["/home"; "/etc"] false false)
           (plain_world (plain_env (fails_at 0)) true) false _ eq_refl).
Defined.

(** ** The loop returns *)

Lemma check_call_returns cmd w :
  starts_all (env w) ->
  exists b w', check_call cmd w = (Ok b, w') /\ env w' = env w.
Proof.
  intros H. unfold check_call.
  destruct (cmd_run (env w) (log w) cmd) as [| |err] eqn:E.
  - eexists _, _. split; [reflexivity|]. now rewrite cmd_effect_env.
  - eexists _, _. split; reflexivity.
  - now destruct (H (log w) cmd err).
Qed.

Lemma fsck_returns v remote parity repair base w :
  Bup.fsck_base v remote = Ok base ->
  starts_all (env w) ->
  exists b w', Bup.fsck v remote parity repair w = (Ok b, w') /\ env w' = env w.
Proof.
  intros Hbase H. unfold Bup.fsck. rewrite Hbase.
  destruct parity; [|destruct repair; now apply check_call_returns].
  unfold_monad.
  destruct (check_call_returns (base ++ ["--par2-ok"]) w H) as [b [w1 [-> He]]].
  destruct b; cbn [negb].
  - rewrite <- He in H.
    destruct (check_call_returns (base ++ ["--generate"]) w1 H) as [b [w2 [-> He2]]].
    eexists _, _. split; [reflexivity|]. congruence.
  - eexists _, _. split; [reflexivity|]. assumption.
Qed.

Lemma bind_returns {S A B} (c : M S A) (k : A -> M S B) s a s1 :
  c s = (Ok a, s1) -> bind c k s = k a s1.
Proof. intros H. unfold bind. now rewrite H. Qed.

Lemma verify_returns args success base w :
  Bup.fsck_base (Args.verbose args) (Args.remote args) = Ok base ->
  starts_all (env w) ->
  exists b w', verify args success w = (Ok b, w') /\ env w' = env w.
Proof.
  intros Hbase H. unfold verify.
  destruct (Args.check args); [|eexists _, _; split; reflexivity].
  destruct (fsck_returns (Args.verbose args) (Args.remote args) false (Args.repair args)
              base w Hbase H) as [a [w1 [Hf He1]]].
  rewrite (bind_returns _ _ _ _ _ Hf).
  destruct a; cbn [negb]; [eexists _, _; split; [reflexivity | assumption]|].
  rewrite <- He1 in H.
  destruct (fsck_returns (Args.verbose args) (Args.remote args) false false base w1 Hbase H)
    as [a [w2 [Hf2 He2]]].
  rewrite (bind_returns _ _ _ _ _ Hf2).
  eexists _, _. split; [reflexivity | congruence].
Qed.

Lemma path_body_returns args success snapshot base w :
  Args.stats args = false ->
  Bup.fsck_base (Args.verbose args) (Args.remote args) = Ok base ->
  starts_all (env w) ->
  exists b w', path_body args success snapshot w = (Ok b, w') /\ env w' = env w.
Proof.
  intros Hstats Hbase H. unfold path_body, Bup.index, Bup.save. rewrite Hstats.
  match goal with
  | |- context [bind (check_call ?c) _ w] =>
      destruct (check_call_returns c w H) as [b [w1 [Hi He1]]]
  end.
  rewrite (bind_returns _ _ _ _ _ Hi).
  destruct b; cbn [negb]; [|eexists _, _; split; [reflexivity | assumption]].
  rewrite <- He1 in H.
  rewrite (bind_returns (fun w : World => (Ok w, w)) _ w1 w1 w1 eq_refl).
  match goal with
  | |- context [bind (check_call ?c) _ w1] =>
      destruct (check_call_returns c w1 H) as [b [w2 [Hs He2]]]
  end.
  rewrite (bind_returns _ _ _ _ _ Hs). rewrite <- He2 in H.
  destruct (verify_returns args (if negb b then false else success) base w2 Hbase H)
    as [b' [w3 [Hv He3]]].
  rewrite (bind_returns _ _ _ _ _ Hv). rewrite <- He3 in H.
  destruct (Args.parity args).
  - destruct (fsck_returns (Args.verbose args) (Args.remote args) true false base w3 Hbase H)
      as [a [w4 [Hf He4]]].
    unfold bind. rewrite Hf.
    eexists _, _. split; [reflexivity | cbn; congruence].
  - eexists _, _. split; [reflexivity | cbn; congruence].
Qed.

Lemma process_loop_returns args paths success base w :
  Snapshot.select (Args.snapshot args) = Ok Snapshot.NoSnapshot ->
  Args.stats args = false ->
  Bup.fsck_base (Args.verbose args) (Args.remote args) = Ok base ->
  starts_all (env w) ->
  exists b w', process_loop args paths success w = (Ok b, w').
Proof.
  intros Hsel Hstats Hbase. revert success w.
  induction paths as [|p rest IH]; intros success w H.
  - now exists success, w.
  - cbn [process_loop]. unfold bind.
    rewrite (process_path_NoSnapshot args p success w Hsel).
    destruct (path_body_returns args success
                (Snapshot.new Snapshot.NoSnapshot p (Args.size args) (Args.verbose args)
                   (Args.mountpoint args)) base w Hstats Hbase H) as [b [w1 [-> He]]].
    apply IH. now rewrite He.
Qed.

Lemma process_returns args base w :
  Snapshot.select (Args.snapshot args) = Ok Snapshot.NoSnapshot ->
  Args.stats args = false ->
  Bup.fsck_base (Args.verbose args) (Args.remote args) = Ok base ->
  starts_all (env w) ->
  exists b w', process args w = (Ok b, w').
Proof.
  intros Hsel Hstats Hbase H. unfold process. rewrite Hstats. unfold bind, ret.
  now apply (process_loop_returns args (Args.paths args) true base w).
Qed.

(** ** Cleanup clears the flag [exists] *)

Lemma cleanup_clears_exists force s w :
  Snapshot.exists_ (fst (snd (LvmSnapshot.cleanup force (s, w)))) = false.
Proof.
  unfold LvmSnapshot.cleanup. unfold bind at 1. cbn [self fst snd].
  destruct (negb (Snapshot.exists_ s) && negb force)%bool eqn:Hc.
  - cbn. apply andb_prop in Hc. destruct Hc as [Hc _]. now apply negb_true_iff in Hc.
  - unfold bind at 1. cbn [set_self fst snd].
    match goal with
    | |- context [bind ?c ?k (?o, w)] =>
        assert (Hk : keeps same_object (bind c k)) by (repeat keeps_step);
        specialize (Hk (o, w)); unfold same_object, on_object in Hk; rewrite Hk
    end.
    reflexivity.
Qed.

Lemma snapshot_exit_clears_exists t s w :
  Snapshot.exists_ (fst (snd (snapshot_exit t (s, w)))) = false.
Proof.
  unfold snapshot_exit. unfold bind at 1.
  destruct (snapshot_cleanup (s, w)) as [[[]|e] [s1 w1]] eqn:Hc.
  - reflexivity.
  - cbn [fst snd]. unfold snapshot_cleanup in Hc. unfold bind in Hc. cbn [self fst snd] in Hc.
    destruct (Snapshot.cls_of s); [discriminate|].
    pose proof (cleanup_clears_exists false s w) as H. rewrite Hc in H. exact H.
Qed.

(** ** Index failure *)

(** C6.  When the index of a path fails: the turn ends with the flag false
    whatever it was; nothing but [Snapshot.__exit__] runs after the index
    command, so no [bup] command and no save; the snapshot object ends
    with [exists] cleared; and when [__exit__] returns, the loop goes on
    with the remaining paths, each processed as a turn of its own, and
    returns false even if all of them succeed. *)
Theorem index_failure_skips_save (args : Args.t) (path : string) (rest : list string)
    (success : bool) (w : World) (c : Snapshot.cls) (snap : Snapshot.t) (w1 w2 : World) :
  Snapshot.select (Args.snapshot args) = Ok c ->
  snapshot_enter
    (Snapshot.new c path (Args.size args) (Args.verbose args) (Args.mountpoint args), w)
  = (Ok snap, (snap, w1)) ->
  Bup.index (Args.verbose args) (Snapshot.path snap) (Args.exclude args)
    (Args.exclude_rx args) (Args.exclude_from args) (Args.exclude_rx_from args) true w1
  = (Ok false, w2) ->
  exists r s3 w3 cmds,
    snapshot_exit None (snap, w2) = (r, (s3, w3))
    /\ process_path args path success w
       = (match r with Ok _ => Ok false | Raise e => Raise e end, w3)
    /\ Snapshot.exists_ s3 = false
    /\ log w3 = log w1
                ++ [Bup.index_cmd (Args.verbose args) (Snapshot.path snap) (Args.exclude args)
                      (Args.exclude_rx args) (Args.exclude_from args)
                      (Args.exclude_rx_from args) true]
                ++ cmds
    /\ Forall not_bup cmds
    /\ (forall x, r = Ok x ->
        process_loop args (path :: rest) success w
        = (match fst (path_flags args rest w3) with
           | Ok _ => Ok false
           | Raise e => Raise e
           end, snd (path_flags args rest w3))).
Proof.
  intros Hsel Henter Hidx.
  destruct (snapshot_exit None (snap, w2)) as [r [s3 w3]] eqn:Hexit.
  assert (Hbody : path_body args success snap w1 = (Ok false, w2)).
  { unfold path_body. unfold bind at 1. rewrite Hidx. reflexivity. }
  assert (Hpath : process_path args path success w
                  = (match r with Ok _ => Ok false | Raise e => Raise e end, w3)).
  { rewrite (process_path_entered args path success w c snap w1 Hsel Henter), Hbody, Hexit.
    now destruct r. }
  destruct (keeps_snapshot_exit None (snap, w2)) as [cmds [Hlog Hcmds]].
  rewrite Hexit in Hlog. cbn [snd] in Hlog.
  exists r, s3, w3, cmds. repeat split; try assumption.
  - pose proof (snapshot_exit_clears_exists None snap w2) as H. now rewrite Hexit in H.
  - rewrite Hlog. unfold Bup.index in Hidx.
    pose proof (check_call_log (Bup.index_cmd (Args.verbose args) (Snapshot.path snap)
                  (Args.exclude args) (Args.exclude_rx args) (Args.exclude_from args)
                  (Args.exclude_rx_from args) true) w1) as Hl.
    rewrite Hidx in Hl. cbn [snd] in Hl. now rewrite Hl, <- app_assoc.
  - intros x ->. cbn [process_loop]. unfold bind at 1. rewrite Hpath.
    rewrite process_loop_flags.
    destruct (path_flags args rest w3) as [[bs|e] w4]; reflexivity.
Qed.

(** Two paths on a host without snapshots; the first command of the run,
    the index of [/home], fails.  [/etc] is indexed and saved, its flag is
    true, and the run exits with status 1. *)
Lemma index_failure_witness :
  Bup.index 0 "/home" [] [] [] [] true (plain_world (plain_env (fails_at 0)) true)
  = (Ok false, snd (Bup.index 0 "/home" [] [] [] [] true
                      (plain_world (plain_env (fails_at 0)) true)))
  /\ log (snd (process (plain_args ["/home"; "/etc"] false false)
                 (plain_world (plain_env (fails_at 0)) true)))
     = [["bup"; "index"; "--one-file-system"; "/home"];
        ["bup"; "index"; "--one-file-system"; "/etc"];
        ["bup"; "save"; "--quiet"; "--name"; "myhost-_etc"; "--strip-path"; "/etc"; "/etc"]]
  /\ run (plain_args ["/home"; "/etc"] false false)
         (plain_world (plain_env (fails_at 0)) true) = 1
  /\ exists r s3 w3 cmds,
      snapshot_exit None
        (Snapshot.new Snapshot.NoSnapshot "/home" "1GB" 0 (Some "/media/bup/%s-%s"),
         snd (Bup.index 0 "/home" [] [] [] [] true
                (plain_world (plain_env (fails_at 0)) true)))
      = (r, (s3, w3))
      /\ process_path (plain_args ["/home"; "/etc"] false false) "/home" true
           (plain_world (plain_env (fails_at 0)) true)
         = (match r with Ok _ => Ok false | Raise e => Raise e end, w3)
      /\ Snapshot.exists_ s3 = false
      /\ log w3 = log (plain_world (plain_env (fails_at 0)) true)
                  ++ [Bup.index_cmd 0 "/home" [] [] [] [] true] ++ cmds
      /\ Forall not_bup cmds
      /\ (forall x, r = Ok x ->
          process_loop (plain_args ["/home"; "/etc"] false false) ["/home"; "/etc"] true
            (plain_world (plain_env (fails_at 0)) true)
          = (match fst (path_flags (plain_args ["/home"; "/etc"] false false) ["/etc"] w3) with
             | Ok _ => Ok false
             | Raise e => Raise e
             end,
             snd (path_flags (plain_args ["/home"; "/etc"] false false) ["/etc"] w3))).
Proof.
  split; [reflexivity|]. split; [reflexivity|]. split; [reflexivity|].
  exact (index_failure_skips_save (plain_args ["/home"; "/etc"] false false) "/home" ["/etc"]
           true (plain_world (plain_env (fails_at 0)) true) Snapshot.NoSnapshot
           (Snapshot.new Snapshot.NoSnapshot "/home" "1GB" 0 (Some "/media/bup/%s-%s"))
           (plain_world (plain_env (fails_at 0)) true) _ eq_refl eq_refl eq_refl).
Defined.

(** ** What the orchestrator hands to save *)

(** C10.  In a turn whose index succeeds, the command after the index is
    the save of the single path [snapshot.path], with [snapshot.path] as
    its graft argument too; when that path contains no [=], the command
    carries it behind [--strip-path], and [--graft] is no option of it. *)
Theorem save_gets_materialized_path (args : Args.t) (path : string) (success : bool)
    (w : World) (c : Snapshot.cls) (snap : Snapshot.t) (w1 : World) :
  Snapshot.select (Args.snapshot args) = Ok c ->
  snapshot_enter
    (Snapshot.new c path (Args.size args) (Args.verbose args) (Args.mountpoint args), w)
  = (Ok snap, (snap, w1)) ->
  cmd_run (env w1) (log w1)
    (Bup.index_cmd (Args.verbose args) (Snapshot.path snap) (Args.exclude args)
       (Args.exclude_rx args) (Args.exclude_from args) (Args.exclude_rx_from args) true)
  = Exit0 ->
  (exists rest,
      log (snd (process_path args path success w)) =
      log w1
      ++ [Bup.index_cmd (Args.verbose args) (Snapshot.path snap) (Args.exclude args)
            (Args.exclude_rx args) (Args.exclude_from args) (Args.exclude_rx_from args) true;
          Bup.save_cmd (Args.verbose args) [Snapshot.path snap]
            (branch_for args (hostname (env w1)) snap) (Snapshot.path snap)
            (Args.remote args)]
      ++ rest)
  /\ (contains "=" (Snapshot.path snap) = false ->
      exists opts post,
        Bup.save_cmd (Args.verbose args) [Snapshot.path snap]
          (branch_for args (hostname (env w1)) snap) (Snapshot.path snap) (Args.remote args)
        = ["bup"; "save"] ++ opts
          ++ ["--name"; branch_for args (hostname (env w1)) snap;
              "--strip-path"; Snapshot.path snap]
          ++ post ++ [Snapshot.path snap]
        /\ (opts = [] \/ opts = ["--quiet"] \/ opts = ["--verbose"]
            \/ (exists r, opts = ["-r"; r]) \/ (exists r, opts = ["--quiet"; "-r"; r])
            \/ (exists r, opts = ["--verbose"; "-r"; r]))
        /\ (post = [] \/ post = ["--tree"; "--commit"])).
Proof.
  intros Hsel Henter Hidx. split.
  - rewrite (process_path_entered args path success w c snap w1 Hsel Henter).
    destruct (path_body_log args success snap w1 Hidx) as [rest Hlog].
    destruct (path_body args success snap w1) as [[b|e] w2]; cbn [snd] in Hlog.
    + destruct (keeps_snapshot_exit None (snap, w2)) as [cmds [Hl _]].
      destruct (snapshot_exit None (snap, w2)) as [[x|e] [s3 w3]]; cbn [snd] in *;
        exists (rest ++ cmds); rewrite Hl, Hlog, <- !app_assoc; reflexivity.
    + destruct (keeps_snapshot_exit (Some e) (snap, w2)) as [cmds [Hl _]].
      destruct (snapshot_exit (Some e) (snap, w2)) as [[x|e'] [s3 w3]]; cbn [snd] in *;
        exists (rest ++ cmds); rewrite Hl, Hlog, <- !app_assoc; reflexivity.
  - intros Hno. unfold Bup.save_cmd. rewrite Hno.
    exists ((if Args.verbose args <=? 0 then ["--quiet"]
             else if 3 <=? Args.verbose args then ["--verbose"] else [])
            ++ (if truthy (Args.remote args)
                then ["-r"; match Args.remote args with Some r => r | None => "" end]
                else [])),
           (if 2 <=? Args.verbose args then ["--tree"; "--commit"] else []).
    split; [now rewrite <- !app_assoc|]. split.
    + destruct (Args.verbose args <=? 0), (3 <=? Args.verbose args),
        (truthy (Args.remote args)); cbn; eauto 10.
    + destruct (2 <=? Args.verbose args); auto.
Qed.

Lemma save_gets_materialized_path_witness :
  contains "=" "/home" = false
  /\ (exists rest,
         log (snd (process_path (plain_args ["/home"] false false) "/home" true
                     (plain_world (plain_env all_ok) true))) =
         log (plain_world (plain_env all_ok) true)
         ++ [["bup"; "index"; "--one-file-system"; "/home"];
             ["bup"; "save"; "--quiet"; "--name"; "myhost-_home"; "--strip-path"; "/home";
              "/home"]]
         ++ rest).
Proof.
  split; [reflexivity|].
  exact (proj1 (save_gets_materialized_path (plain_args ["/home"] false false) "/home" true
                  (plain_world (plain_env all_ok) true) Snapshot.NoSnapshot
                  (Snapshot.new Snapshot.NoSnapshot "/home" "1GB" 0 (Some "/media/bup/%s-%s"))
                  (plain_world (plain_env all_ok) true) eq_refl eq_refl eq_refl)).
Defined.

(** ** Verification *)

(** C5 as amended.  With verification on and a well-formed remote, the
    first [fsck] of a path is [fsck --repair] when repair is on and
    [fsck --quick] when it is not.  When it succeeds nothing follows and
    the flag stays; when it fails exactly one [fsck --quick] follows, in
    both cases, and the flag stays if that one succeeds and becomes false if
    it fails. *)
Theorem verify_checks_again_once (args : Args.t) (success : bool) (w : World)
    (base : command) :
  Args.check args = true ->
  Bup.fsck_base (Args.verbose args) (Args.remote args) = Ok base ->
  match cmd_run (env w) (log w)
          (base ++ [if Args.repair args then "--repair" else "--quick"]) with
  | Exit0 =>
      fst (verify args success w) = Ok success
      /\ log (snd (verify args success w))
         = log w ++ [base ++ [if Args.repair args then "--repair" else "--quick"]]
  | ExitFail =>
      fst (verify args success w)
      = match cmd_run (env w)
                (log w ++ [base ++ [if Args.repair args then "--repair" else "--quick"]])
                (base ++ ["--quick"]) with
        | Exit0 => Ok success
        | ExitFail => Ok false
        | SpawnFail e => Raise (OSError e)
        end
      /\ log (snd (verify args success w))
         = log w ++ [base ++ [if Args.repair args then "--repair" else "--quick"];
                     base ++ ["--quick"]]
  | SpawnFail e =>
      fst (verify args success w) = Raise (OSError e)
      /\ log (snd (verify args success w))
         = log w ++ [base ++ [if Args.repair args then "--repair" else "--quick"]]
  end.
Proof.
  intros Hcheck Hbase. unfold verify. rewrite Hcheck. unfold Bup.fsck. rewrite Hbase.
  set (first := base ++ [if Args.repair args then "--repair" else "--quick"]).
  assert (Hfirst : (if Args.repair args
                    then check_call (base ++ ["--repair"])
                    else check_call (base ++ ["--quick"])) = check_call first).
  { subst first. now destruct (Args.repair args). }
  cbn [negb]. rewrite Hfirst. clearbody first. clear Hfirst. unfold_monad.
  pose proof (check_call_log first w) as Hl.
  pose proof (check_call_result first w) as Hr.
  assert (He : env (snd (check_call first w)) = env w).
  { unfold check_call. destruct (cmd_run (env w) (log w) first); cbn [snd];
      now rewrite ?cmd_effect_env. }
  destruct (check_call first w) as [r w1]. cbn [fst snd] in *. subst r.
  destruct (cmd_run (env w) (log w) first); cbn [negb].
  - cbn. now split.
  - pose proof (check_call_log (base ++ ["--quick"]) w1) as Hl2.
    pose proof (check_call_result (base ++ ["--quick"]) w1) as Hr2.
    rewrite He, Hl in Hr2.
    destruct (check_call (base ++ ["--quick"]) w1) as [r2 w2]. cbn [fst snd] in *. subst r2.
    destruct (cmd_run (env w) (log w ++ [first]) (base ++ ["--quick"]));
      cbn [fst snd negb]; (split; [reflexivity | now rewrite Hl2, Hl, <- app_assoc]).
  - cbn. now split.
Qed.

(** Repair is on and [fsck --repair], the third command, fails; the
    [fsck --quick] that follows succeeds and the flag stays true. *)
Lemma verify_checks_again_once_witness :
  fst (verify (plain_args ["/home"] true true) true
         (plain_world (plain_env (fails_at 0)) true)) = Ok true
  /\ log (snd (verify (plain_args ["/home"] true true) true
                 (plain_world (plain_env (fails_at 0)) true)))
     = [["bup"; "fsck"; "--repair"]; ["bup"; "fsck"; "--quick"]].
Proof.
  exact (verify_checks_again_once (plain_args ["/home"] true true) true
           (plain_world (plain_env (fails_at 0)) true) ["bup"; "fsck"] eq_refl eq_refl).
Defined.

(** C5 as stated fails twice.  Without repair, a failed check does not mark
    the path failed at once: [fsck --quick] runs a second time and, when it
    passes, the flag of the path is true.  With repair, the first [fsck] of
    the path is [fsck --repair], not [fsck --quick]. *)
Lemma failed_check_is_not_final :
  Args.check (plain_args ["/home"] true false) = true
  /\ Args.repair (plain_args ["/home"] true false) = false
  /\ cmd_run (plain_env (fails_at 2))
       [["bup"; "index"; "--one-file-system"; "/home"];
        ["bup"; "save"; "--quiet"; "--name"; "myhost-_home"; "--strip-path"; "/home"; "/home"]]
       ["bup"; "fsck"; "--quick"] = ExitFail
  /\ fst (process (plain_args ["/home"] true false)
            (plain_world (plain_env (fails_at 2)) true)) = Ok true
  /\ log (snd (process (plain_args ["/home"] true false)
                 (plain_world (plain_env (fails_at 2)) true)))
     = [["bup"; "index"; "--one-file-system"; "/home"];
        ["bup"; "save"; "--quiet"; "--name"; "myhost-_home"; "--strip-path"; "/home"; "/home"];
        ["bup"; "fsck"; "--quick"];
        ["bup"; "fsck"; "--quick"]]
  /\ log (snd (process (plain_args ["/home"] true true)
                 (plain_world (plain_env all_ok) true)))
     = [["bup"; "index"; "--one-file-system"; "/home"];
        ["bup"; "save"; "--quiet"; "--name"; "myhost-_home"; "--strip-path"; "/home"; "/home"];
        ["bup"; "fsck"; "--repair"]].
Proof. repeat split. Qed.

(** ** Cleanup twice *)

Lemma keeps_cleanup_snapshot force :
  keeps (on_object same_snapshot) (LvmSnapshot.cleanup force).
Proof. unfold LvmSnapshot.cleanup. repeat keeps_step. Qed.

Lemma mem_del (x : string) (l : list string) : mem x (del x l) = false.
Proof.
  unfold mem, del. induction l as [|y l IH]; [reflexivity|]. cbn.
  destruct (String.eqb x y) eqn:E; cbn; [assumption|]. now rewrite E.
Qed.

Lemma check_call_umount_ok m w :
  cmd_run (env w) (log w) ["umount"; m] = Exit0 ->
  check_call ["umount"; m] w
  = (Ok true, set_mounts (del m (mounts w)) (set_log (log w ++ [["umount"; m]]) w)).
Proof. intros H. unfold check_call. now rewrite H. Qed.

Lemma check_call_lvremove_ok device flags w :
  cmd_run (env w) (log w) (["lvremove"; "--force"; device] ++ flags) = Exit0 ->
  check_call (["lvremove"; "--force"; device] ++ flags) w
  = (Ok true,
     set_blkdevs (del device (blkdevs w))
       (set_log (log w ++ [["lvremove"; "--force"; device] ++ flags]) w)).
Proof. intros H. unfold check_call. now rewrite H. Qed.

(** After a cleanup of a snapshot that exists, in which [umount] and
    [lvremove] succeed, nothing is mounted on the mount point and the
    snapshot volume is no block device. *)
Lemma cleanup_leaves_nothing s w vg lv m :
  Snapshot.exists_ s = true ->
  Snapshot.vg_lv s = Some (vg, lv) ->
  format (Snapshot.mountpattern s) [vg; lv] = Some m ->
  fst (LvmSnapshot.cleanup false (s, w)) = Ok tt ->
  (forall h, cmd_run (env w) h ["umount"; m] = Exit0) ->
  (forall h, cmd_run (env w) h
               (["lvremove"; "--force"; "/dev/" +s+ vg +s+ "/" +s+ "snap" +s+ lv]
                ++ LvmSnapshot.verbosity_flags (Snapshot.verbose s)) = Exit0) ->
  ismount m (snd (snd (LvmSnapshot.cleanup false (s, w)))) = false
  /\ mem ("/dev/" +s+ vg +s+ "/" +s+ "snap" +s+ lv)
       (blkdevs (snd (snd (LvmSnapshot.cleanup false (s, w))))) = false.
Proof.
  intros Hex Hvg Hfmt Hok Hum Hlv. revert Hok.
  unfold LvmSnapshot.cleanup, LvmSnapshot.mountpoint, LvmSnapshot.device,
    LvmSnapshot.snapname.
  red_monad. rewrite Hex. cbn [negb andb]. red_monad.
  change (Snapshot.vg_lv (Snapshot.set_exists false s)) with (Snapshot.vg_lv s).
  change (Snapshot.mountpattern (Snapshot.set_exists false s)) with (Snapshot.mountpattern s).
  change (Snapshot.verbose (Snapshot.set_exists false s)) with (Snapshot.verbose s).
  rewrite Hvg. red_monad. rewrite Hfmt. red_monad.
  unfold os_wait.
  destruct (wait_fault (env w)) as [[]|] eqn:Hw; red_monad; try discriminate; intros _.
  all: unfold ismount.
  all: destruct (mem m (mounts w)) eqn:Hm; red_monad.
  all: try (rewrite (check_call_umount_ok m w (Hum _)); red_monad).
  all: unfold os_removedirs, ismount; cbn [dirs mounts set_mounts set_log set_dirs].
  all: rewrite ?mem_del, ?Hm.
  all: match goal with
       | |- context [if negb ?b then _ else _] => destruct b; cbn [negb]; red_monad
       end.
  all: repeat (progress change (Snapshot.vg_lv (Snapshot.set_exists false s))
                 with (Snapshot.vg_lv s);
               rewrite Hvg; red_monad).
  all: unfold stat_isblk; cbn [blkdevs dirs files set_mounts set_log set_dirs].
  all: repeat match goal with
         | |- context [if mem ?x ?l then _ else _] =>
             let E := fresh "E" in destruct (mem x l) eqn:E; red_monad
         | |- context [match files ?w ?p with _ => _ end] =>
             destruct (files w p); red_monad
         end.
  all: try (rewrite check_call_lvremove_ok by apply Hlv; red_monad;
            cbn [blkdevs mounts set_blkdevs set_mounts set_log set_dirs]).
  all: cbn [blkdevs mounts set_blkdevs set_mounts set_log set_dirs].
  all: rewrite ?mem_del; auto.
Qed.

Lemma cleanup_noop s w :
  Snapshot.exists_ s = false -> LvmSnapshot.cleanup false (s, w) = (Ok tt, (s, w)).
Proof. intros H. unfold LvmSnapshot.cleanup. red_monad. now rewrite H. Qed.

Lemma snapshot_cleanup_lvm s w :
  Snapshot.cls_of s = Snapshot.LvmSnapshot ->
  snapshot_cleanup (s, w) = LvmSnapshot.cleanup false (s, w).
Proof. intros H. unfold snapshot_cleanup. red_monad. now rewrite H. Qed.

(** C9 as amended.  A second cleanup right after a first one returns
    without raising and leaves the object and the world as they are, for
    every snapshot object, whatever the first cleanup did.  For an LVM
    snapshot that exists, when the first cleanup returns and [umount] and
    [lvremove] succeed, nothing is mounted on the mount point and the
    snapshot volume is no block device afterwards. *)
Theorem cleanup_twice (s : Snapshot.t) (w : World) :
  snapshot_cleanup (snd (snapshot_cleanup (s, w))) = (Ok tt, snd (snapshot_cleanup (s, w)))
  /\ (forall vg lv m,
        Snapshot.cls_of s = Snapshot.LvmSnapshot ->
        Snapshot.exists_ s = true ->
        Snapshot.vg_lv s = Some (vg, lv) ->
        format (Snapshot.mountpattern s) [vg; lv] = Some m ->
        fst (snapshot_cleanup (s, w)) = Ok tt ->
        (forall h, cmd_run (env w) h ["umount"; m] = Exit0) ->
        (forall h, cmd_run (env w) h
                     (["lvremove"; "--force"; "/dev/" +s+ vg +s+ "/" +s+ "snap" +s+ lv]
                      ++ LvmSnapshot.verbosity_flags (Snapshot.verbose s)) = Exit0) ->
        ismount m (snd (snd (snapshot_cleanup (s, w)))) = false
        /\ mem ("/dev/" +s+ vg +s+ "/" +s+ "snap" +s+ lv)
             (blkdevs (snd (snd (snapshot_cleanup (s, w))))) = false).
Proof.
  split.
  - destruct (Snapshot.cls_of s) eqn:Hcls.
    + unfold snapshot_cleanup. red_monad. rewrite Hcls. red_monad. now rewrite Hcls.
    + rewrite (snapshot_cleanup_lvm s w Hcls).
      pose proof (cleanup_clears_exists false s w) as Hex.
      pose proof (keeps_cleanup_snapshot false (s, w)) as Hsame.
      destruct (LvmSnapshot.cleanup false (s, w)) as [r [s1 w1]].
      cbn [fst snd] in *. unfold on_object, same_snapshot in Hsame. cbn [fst] in Hsame.
      assert (Hcls1 : Snapshot.cls_of s1 = Snapshot.LvmSnapshot).
      { rewrite <- Hcls.
        change (Snapshot.cls_of (Snapshot.set_exists false s1)
                = Snapshot.cls_of (Snapshot.set_exists false s)).
        now rewrite Hsame. }
      rewrite (snapshot_cleanup_lvm s1 w1 Hcls1). now apply cleanup_noop.
  - intros vg lv m Hcls Hex Hvg Hfmt Hok Hum Hlv.
    rewrite (snapshot_cleanup_lvm s w Hcls) in *.
    now apply cleanup_leaves_nothing.
Qed.

(** The snapshot of [/home] on a host where every command succeeds: after
    the cleanup nothing is mounted and the volume is gone. *)
Lemma cleanup_twice_witness :
  Snapshot.exists_ (fst entered_ok) = true
  /\ snapshot_cleanup (snd (snapshot_cleanup (fst entered_ok, snd entered_ok)))
     = (Ok tt, snd (snapshot_cleanup (fst entered_ok, snd entered_ok)))
  /\ ismount "/media/bup/vg0-home"
       (snd (snd (snapshot_cleanup (fst entered_ok, snd entered_ok)))) = false
  /\ mem "/dev/vg0/snaphome"
       (blkdevs (snd (snd (snapshot_cleanup (fst entered_ok, snd entered_ok))))) = false.
Proof.
  split; [reflexivity|]. split.
  - exact (proj1 (cleanup_twice (fst entered_ok) (snd entered_ok))).
  - exact (proj2 (cleanup_twice (fst entered_ok) (snd entered_ok))
             "vg0" "home" "/media/bup/vg0-home" eq_refl eq_refl eq_refl eq_refl eq_refl
             (fun _ => eq_refl) (fun _ => eq_refl)).
Defined.

(** C9 as stated fails: the snapshot is mounted, [umount] and [lvremove]
    fail in the first cleanup, which only warns; neither cleanup raises,
    and after the second one the snapshot is still mounted and its volume
    still there. *)
Lemma failed_umount_leaves_mount :
  Snapshot.exists_ (fst entered) = true
  /\ ismount "/media/bup/vg0-home" (snd entered) = true
  /\ mem "/dev/vg0/snaphome" (blkdevs (snd entered)) = true
  /\ fst (snapshot_cleanup entered) = Ok tt
  /\ fst (snapshot_cleanup (snd (snapshot_cleanup entered))) = Ok tt
  /\ log (snd (snd (snapshot_cleanup (snd (snapshot_cleanup entered)))))
     = [["lvcreate"; "--size"; "1GB"; "--snapshot"; "--permission"; "r"; "--name";
         "snaphome"; "/dev/vg0/home"; "--quiet"];
        ["mount"; "-o"; "ro"; "/dev/vg0/snaphome"; "/media/bup/vg0-home"];
        ["umount"; "/media/bup/vg0-home"];
        ["lvremove"; "--force"; "/dev/vg0/snaphome"; "--quiet"]]
  /\ ismount "/media/bup/vg0-home"
       (snd (snd (snapshot_cleanup (snd (snapshot_cleanup entered))))) = true
  /\ mem "/dev/vg0/snaphome"
       (blkdevs (snd (snd (snapshot_cleanup (snd (snapshot_cleanup entered)))))) = true.
Proof. repeat split. Qed.

(** ** The lock *)

Lemma upd_same f p v : upd f p v p = v.
Proof. unfold upd. now rewrite String.eqb_refl. Qed.

(** What [_check] makes of a lock file that can be read. *)
Lemma check_result p fd w text :
  files w p = Some text ->
  read_fault (env w) p = None ->
  Pidfile._check (Pidfile.mk p fd, w)
  = (match int text with
     | None => Ok Pidfile.RFalse
     | Some pid =>
         if proc_entry (env w) pid then Ok (Pidfile.RPid pid)
         else match kill_probe (env w) pid with
              | None => Ok (Pidfile.RPid pid)
              | Some (OSError ESRCH) => Ok Pidfile.RFalse
              | Some (OSError EPERM) => Ok (Pidfile.RPid pid)
              | Some (OSError _) => Ok Pidfile.RNone
              | Some e => Raise e
              end
     end, (Pidfile.mk p fd, w)).
Proof.
  intros Hf Hr. unfold Pidfile._check, open_read, os_kill0. red_monad.
  cbn [Pidfile.pidfile]. rewrite Hf, Hr. red_monad.
  destruct (int text) as [pid|]; [|reflexivity]. red_monad.
  destruct (proc_entry (env w) pid); [reflexivity|]. red_monad.
  destruct (kill_probe (env w) pid) as [[[]| | | | | | | |]|]; reflexivity.
Qed.




(** A lock file that holds [0]: the zero signal to process 0 reaches the
    caller's own group, [_check] returns 0, which is not true, and the
    lock is taken over. *)
Lemma lock_of_pid_zero_is_taken :
  fst (Pidfile._check (Pidfile.new lock_path, locked_world alive_env "0"))
  = Ok (Pidfile.RPid 0)
  /\ fst (Pidfile.create (Pidfile.new lock_path, locked_world alive_env "0")) = Ok tt
  /\ files (snd (snd (Pidfile.create (Pidfile.new lock_path, locked_world alive_env "0"))))
       lock_path
     = Some "4242".
Proof. repeat split. Qed.

(** ** Leaving the scope of the lock *)

(** Without an exception the lock file is removed, when it is there and
    may be removed. *)
Lemma exit_without_exception s w text :
  files w (Pidfile.pidfile s) = Some text ->
  write_fault (env w) (Pidfile.pidfile s) = None ->
  fst (Pidfile.__exit__ None (s, w)) = Ok true
  /\ files (snd (snd (Pidfile.__exit__ None (s, w)))) (Pidfile.pidfile s) = None.
Proof.
  intros Hf Hw. unfold Pidfile.__exit__, Pidfile.remove, os_remove. red_monad.
  rewrite Hf, Hw. cbn [files set_files]. now rewrite upd_same.
Qed.

(** On [ProcessRunningException] nothing is touched. *)
Lemma exit_on_lock_held s w path pid :
  Pidfile.__exit__ (Some (ProcessRunningException path pid)) (s, w) = (Ok false, (s, w)).
Proof. reflexivity. Qed.

(** On another exception the lock file is removed when the descriptor kept
    in [pidfd] is not zero. *)
Lemma exit_on_other_exception e s w fd text :
  (forall path pid, e <> ProcessRunningException path pid) ->
  Pidfile.pidfd s = Pidfile.Fd fd ->
  fd <> 0 ->
  files w (Pidfile.pidfile s) = Some text ->
  write_fault (env w) (Pidfile.pidfile s) = None ->
  fst (Pidfile.__exit__ (Some e) (s, w)) = Ok false
  /\ files (snd (snd (Pidfile.__exit__ (Some e) (s, w)))) (Pidfile.pidfile s) = None.
Proof.
  intros He Hfd Hnz Hf Hw. apply Z.eqb_neq in Hnz.
  unfold Pidfile.__exit__, Pidfile.remove, os_remove.
  destruct e; try (now exfalso; eapply He); red_monad;
    rewrite Hfd, Hnz; red_monad; rewrite Hf, Hw; cbn [files set_files];
    now rewrite upd_same.
Qed.

(** C4, where the code departs from it.  A process started with its
    standard input closed gets descriptor 0 for the lock file.  When the
    guarded scope then ends with an exception other than
    [ProcessRunningException], [if self.pidfd] is false, [remove] is not
    called and the lock file of this process stays; the same run with
    standard input open removes it. *)
Theorem lock_kept_on_descriptor_zero :
  fst (Pidfile.create (Pidfile.new lock_path, no_stdin_world (plain_env no_programs)))
  = Ok tt
  /\ Pidfile.pidfd
       (fst (snd (Pidfile.create
                    (Pidfile.new lock_path, no_stdin_world (plain_env no_programs)))))
     = Pidfile.Fd 0
  /\ fst (Pidfile.__exit__ (Some (OSError ENOENT))
            (snd (Pidfile.create
                    (Pidfile.new lock_path, no_stdin_world (plain_env no_programs)))))
     = Ok false
  /\ files
       (snd (snd (Pidfile.__exit__ (Some (OSError ENOENT))
                    (snd (Pidfile.create
                            (Pidfile.new lock_path,
                             no_stdin_world (plain_env no_programs)))))))
       lock_path
     = Some "4242"
  /\ fst (main (plain_args ["/home"] false false) (no_stdin_world (plain_env no_programs)))
     = Raise (OSError ENOENT)
  /\ files (snd (main (plain_args ["/home"] false false)
                   (no_stdin_world (plain_env no_programs)))) lock_path
     = Some "4242"
  /\ files (snd (main (plain_args ["/home"] false false)
                   (plain_world (plain_env no_programs) true))) lock_path
     = None.
Proof. repeat split. Qed.

(** ** Exit status *)

(** C2, where the code departs from it.  The run exits with status 0 or 1
    and never with 2 or 3: [SystemExit] raised by [bail(3)] inside the
    [try] block is caught by [except SystemExit: return], so a failed
    initialisation of the repository ends in status 0, before any lock is
    taken; any other exception is raised again by [except: raise] before
    [bail(2)] is reached, and the interpreter then exits with status 1. *)
Theorem exit_status_is_0_or_1 (args : Args.t) (w : World) :
  (run args w = 0 \/ run args w = 1)
  /\ (bup_dir w = false ->
      fst (Bup.init (Args.remote args) w) = Ok false ->
      fst (main args w) = Ok tt /\ run args w = 0
      /\ files (snd (main args w)) = files w)
  /\ (forall e, fst (main_try args w) = Raise e ->
      (forall status, e <> SystemExit status) ->
      fst (main args w) = Raise e /\ run args w = 1).
Proof.
  split; [|split].
  - unfold run, main. red_monad.
    destruct (main_try args w) as [[[|]|e] w']; cbn; auto.
    destruct e; cbn; auto.
  - intros Hdir Hinit. unfold run, main, main_try. red_monad. rewrite Hdir. cbn [negb].
    unfold Bup.init in *. unfold check_call in *.
    destruct (cmd_run (env w) (log w) _); cbn in Hinit; try discriminate.
    cbn. repeat split.
  - intros e He Hne. unfold run, main. red_monad.
    destruct (main_try args w) as [[b|e'] w']; cbn in He; [discriminate|].
    injection He as ->. destruct e; cbn; auto.
    now exfalso; eapply Hne.
Qed.

(** The repository is missing and [bup init] fails: status 0.  No program
    can be started, so the index raises [OSError]: status 1, and the lock
    file is removed on the way out. *)
Lemma exit_status_witness :
  run (plain_args ["/home"] false false) (plain_world (plain_env all_fail) false) = 0
  /\ log (snd (main (plain_args ["/home"] false false)
                 (plain_world (plain_env all_fail) false)))
     = [["bup"; "init"]]
  /\ run (plain_args ["/home"] false false) (plain_world (plain_env no_programs) true) = 1
  /\ fst (main (plain_args ["/home"] false false) (plain_world (plain_env no_programs) true))
     = Raise (OSError ENOENT)
  /\ files (snd (main (plain_args ["/home"] false false)
                   (plain_world (plain_env no_programs) true))) lock_path
     = None.
Proof.
  split.
  - exact (proj1 (proj2 (proj1 (proj2 (exit_status_is_0_or_1
                                          (plain_args ["/home"] false false)
                                          (plain_world (plain_env all_fail) false)))
                          eq_refl eq_refl))).
  - split; [reflexivity|]. split.
    + exact (proj2 (proj2 (proj2 (exit_status_is_0_or_1
                                    (plain_args ["/home"] false false)
                                    (plain_world (plain_env no_programs) true)))
                      (OSError ENOENT) eq_refl
                      (fun status H => eq_ind (OSError ENOENT)
                                         (fun e => match e with OSError _ => True | _ => False end)
                                         I _ H))).
    + split; reflexivity.
Defined.

(** ** Further runs *)

(** What [int] makes of some lock files. *)
Lemma int_of_lock_texts :
  int "" = None /\ int "abc" = None /\ int "12a" = None /\ int " 12 " = Some 12
  /\ int "-0" = Some 0 /\ int "1_000" = Some 1000.
Proof. repeat split. Qed.

(** With an LVM snapshot, a failed index is followed by the unmount and the
    removal of the snapshot volume, and the next path gets its own
    snapshot. *)
Lemma index_failure_cleans_lvm_snapshot :
  log (snd (process (lvm_args ["/home"; "/home"]) (lvm_world (lvm_env (fails_at 2)))))
  = [["lvcreate"; "--size"; "1GB"; "--snapshot"; "--permission"; "r"; "--name"; "snaphome";
      "/dev/vg0/home"; "--quiet"];
     ["mount"; "-o"; "ro"; "/dev/vg0/snaphome"; "/media/bup/vg0-home"];
     ["bup"; "index"; "--one-file-system"; "/media/bup/vg0-home/."];
     ["umount"; "/media/bup/vg0-home"];
     ["lvremove"; "--force"; "/dev/vg0/snaphome"; "--quiet"];
     ["lvcreate"; "--size"; "1GB"; "--snapshot"; "--permission"; "r"; "--name"; "snaphome";
      "/dev/vg0/home"; "--quiet"];
     ["mount"; "-o"; "ro"; "/dev/vg0/snaphome"; "/media/bup/vg0-home"];
     ["bup"; "index"; "--one-file-system"; "/media/bup/vg0-home/."];
     ["bup"; "save"; "--quiet"; "--name"; "myhost-_home"; "--strip-path";
      "/media/bup/vg0-home/."; "/media/bup/vg0-home/."];
     ["umount"; "/media/bup/vg0-home"];
     ["lvremove"; "--force"; "/dev/vg0/snaphome"; "--quiet"]]
  /\ fst (process (lvm_args ["/home"; "/home"]) (lvm_world (lvm_env (fails_at 2))))
     = Ok false
  /\ mounts (snd (process (lvm_args ["/home"; "/home"]) (lvm_world (lvm_env (fails_at 2)))))
     = ["/home"]
  /\ blkdevs (snd (process (lvm_args ["/home"; "/home"]) (lvm_world (lvm_env (fails_at 2)))))
     = ["/dev/vg0/home"].
Proof. repeat split. Qed.

(** A run without snapshot on a host without repository: the repository
    is initialised, the path indexed and saved, the lock file is gone at
    the end and the status is 0. *)
Lemma first_run_of_a_host :
  log (snd (main (plain_args ["/home"] false false) (plain_world (plain_env all_ok) false)))
  = [["bup"; "init"];
     ["bup"; "index"; "--one-file-system"; "/home"];
     ["bup"; "save"; "--quiet"; "--name"; "myhost-_home"; "--strip-path"; "/home"; "/home"]]
  /\ files (snd (main (plain_args ["/home"] false false)
                   (plain_world (plain_env all_ok) false))) lock_path = None
  /\ run (plain_args ["/home"] false false) (plain_world (plain_env all_ok) false) = 0.
Proof. repeat split. Qed.

(* ================================================================== *)
(** * Further properties *)

(** ** [int] reads what [str] writes *)

Lemma digits_of_uint (d : Decimal.uint) (acc : Z) :
  digits acc false (NilEmpty.string_of_uint d) = Some (horner acc d).
Proof.
  revert acc. induction d; intros acc; cbn [NilEmpty.string_of_uint horner];
    try reflexivity;
    cbn [digits]; (change (is_digit _) with true); cbv iota;
    rewrite IHd; (change (digit_val _) with 0 || change (digit_val _) with 1
                  || change (digit_val _) with 2 || change (digit_val _) with 3
                  || change (digit_val _) with 4 || change (digit_val _) with 5
                  || change (digit_val _) with 6 || change (digit_val _) with 7
                  || change (digit_val _) with 8 || change (digit_val _) with 9);
    rewrite ?Z.add_0_r; reflexivity.
Qed.

Lemma horner_of_uint_acc (d : Decimal.uint) (acc : positive) :
  horner (Z.pos acc) d = Z.pos (Pos.of_uint_acc d acc).
Proof.
  revert acc. induction d; intros acc; cbn [horner Pos.of_uint_acc]; try reflexivity;
    rewrite <- IHd; f_equal; lia.
Qed.

Lemma horner_of_uint (d : Decimal.uint) : horner 0 d = Z.of_uint d.
Proof.
  unfold Z.of_uint.
  induction d; cbn [horner Pos.of_uint]; try reflexivity;
    try (change (10 * 0 + _) with (Z.pos 1) || change (10 * 0 + _) with (Z.pos 2)
         || change (10 * 0 + _) with (Z.pos 3) || change (10 * 0 + _) with (Z.pos 4)
         || change (10 * 0 + _) with (Z.pos 5) || change (10 * 0 + _) with (Z.pos 6)
         || change (10 * 0 + _) with (Z.pos 7) || change (10 * 0 + _) with (Z.pos 8)
         || change (10 * 0 + _) with (Z.pos 9));
    try (rewrite horner_of_uint_acc; reflexivity).
  exact IHd.
Qed.

Lemma no_space_lstrip (s : string) : no_space s = true -> lstrip s = s.
Proof.
  destruct s as [|c s]; [reflexivity|]. cbn. intros H. apply andb_prop in H.
  destruct H as [H _]. apply negb_true_iff in H. now rewrite H.
Qed.

Lemma no_space_rstrip (s : string) : no_space s = true -> rstrip s = s.
Proof.
  induction s as [|c s IH]; [reflexivity|]. cbn [no_space rstrip]. intros H.
  apply andb_prop in H. destruct H as [Hc Hs]. apply negb_true_iff in Hc.
  rewrite (IH Hs). destruct s; [now rewrite Hc | reflexivity].
Qed.

Lemma no_space_of_uint (d : Decimal.uint) : no_space (NilEmpty.string_of_uint d) = true.
Proof. induction d; cbn [NilEmpty.string_of_uint no_space]; try reflexivity; exact IHd. Qed.

Lemma int_of_uint (d : Decimal.uint) :
  d <> Decimal.Nil -> int (NilEmpty.string_of_uint d) = Some (horner 0 d).
Proof.
  intros Hd. unfold int.
  rewrite no_space_lstrip, no_space_rstrip by apply no_space_of_uint.
  rewrite <- digits_of_uint.
  destruct d; [congruence | reflexivity ..].
Qed.

Lemma int_of_neg_uint (d : Decimal.uint) :
  d <> Decimal.Nil ->
  int (String "-" (NilEmpty.string_of_uint d)) = Some (- horner 0 d).
Proof.
  intros Hd. unfold int.
  assert (Hns : no_space (String "-" (NilEmpty.string_of_uint d)) = true).
  { cbn [no_space]. rewrite no_space_of_uint. reflexivity. }
  rewrite no_space_lstrip, no_space_rstrip by exact Hns.
  change (Some (- horner 0 d)) with (option_map Z.opp (Some (horner 0 d))).
  rewrite <- digits_of_uint.
  destruct d; [congruence | reflexivity ..].
Qed.

(** [int] reads back what [str] writes. *)
Lemma int_of_str (z : Z) : int (str z) = Some z.
Proof.
  unfold str. destruct z as [|p|p]; [reflexivity| |].
  - cbn [Z.to_int NilZero.string_of_int]. unfold NilZero.string_of_uint.
    pose proof (DecimalPos.Unsigned.to_uint_nonnil p) as Hn.
    pose proof (DecimalPos.Unsigned.of_to p) as Hof.
    destruct (Pos.to_uint p) eqn:E; [congruence | ..];
      rewrite int_of_uint by congruence; rewrite horner_of_uint;
      unfold Z.of_uint; rewrite Hof; reflexivity.
  - cbn [Z.to_int NilZero.string_of_int]. unfold NilZero.string_of_uint.
    pose proof (DecimalPos.Unsigned.to_uint_nonnil p) as Hn.
    pose proof (DecimalPos.Unsigned.of_to p) as Hof.
    destruct (Pos.to_uint p) eqn:E; [congruence | ..];
      rewrite int_of_neg_uint by congruence; rewrite horner_of_uint;
      unfold Z.of_uint; rewrite Hof; reflexivity.
Qed.

(** X1.  [int(str(n))] is [n], for every integer [n]: the text [create]
    writes into the lock file is read back by [_check] as the same
    process id. *)
Theorem int_str (z : Z) : int (str z) = Some z.
Proof. exact (int_of_str z). Qed.

(** ** More on the lock *)

(** [_check] only reads. *)
Lemma check_reads_only (s : Pidfile.t) (w : World) :
  snd (Pidfile._check (s, w)) = (s, w).
Proof.
  unfold Pidfile._check, open_read, os_kill0. red_monad.
  destruct (files w (Pidfile.pidfile s)); [|reflexivity].
  destruct (read_fault (env w) (Pidfile.pidfile s)); [reflexivity|]. red_monad.
  destruct (int s0); [|reflexivity]. red_monad.
  destruct (proc_entry (env w) z); [reflexivity|]. red_monad.
  destruct (kill_probe (env w) z) as [[[]| | | | | | | |]|]; reflexivity.
Qed.

(** [create] on a lock file that is there: the first [os.open] fails with
    [EEXIST] and the handler decides. *)
Lemma create_on_existing path text w :
  files w path = Some text ->
  Pidfile.create (Pidfile.new path, w)
  = ((pid <- Pidfile._check ;;
      if Pidfile.is_true pid then
        set_self (Pidfile.set_pidfd Pidfile.PyNone) ;;
        raise (ProcessRunningException path
                 (PidInt match pid with Pidfile.RPid p => p | _ => 0 end))
      else
        try_except
          (lift (os_remove path) ;;
           fd <- lift (os_open_excl path) ;;
           set_self (Pidfile.set_pidfd (Pidfile.Fd fd)))
          (fun e' =>
             match e' with
             | OSError EACCES =>
                 raw <- lift (open_read path) ;;
                 raise (ProcessRunningException path (PidText raw))
             | OSError _ => ret tt
             | _ => raise e'
             end)) ;;
     s <- self ;;
     w <- world ;;
     match Pidfile.pidfd s with
     | Pidfile.Unset => raise AttributeError
     | Pidfile.PyNone => raise TypeError
     | Pidfile.Fd fd =>
         lift (os_write fd (str (getpid (env w)))) ;;
         lift (os_close fd)
     end) (Pidfile.new path, w).
Proof.
  intros Hf. unfold Pidfile.create. unfold bind at 1. cbn [self fst snd Pidfile.pidfile Pidfile.new].
  unfold bind at 1 5. unfold try_except at 1. unfold bind at 1. unfold lift at 1.
  unfold os_open_excl at 1. cbn [fst snd]. rewrite Hf. reflexivity.
Qed.

(** [create] on a lock file whose holder [_check] finds alive. *)
Lemma create_held path text w pid :
  files w path = Some text ->
  read_fault (env w) path = None ->
  int text = Some pid ->
  pid <> 0 ->
  proc_entry (env w) pid = true \/ kill_probe (env w) pid = None
  \/ kill_probe (env w) pid = Some (OSError EPERM) ->
  Pidfile.create (Pidfile.new path, w)
  = (Raise (ProcessRunningException path (PidInt pid)),
     (Pidfile.mk path Pidfile.PyNone, w)).
Proof.
  intros Hf Hr Hint Hnz Halive. rewrite (create_on_existing path text w Hf).
  unfold bind at 1 2. unfold Pidfile.new.
  rewrite (check_result path Pidfile.Unset w text Hf Hr), Hint.
  apply Z.eqb_neq in Hnz.
  destruct (proc_entry (env w) pid).
  - cbn [Pidfile.is_true]. rewrite Hnz. reflexivity.
  - destruct Halive as [H|[-> | ->]]; [discriminate | |];
      cbn [Pidfile.is_true]; rewrite Hnz; reflexivity.
Qed.

(** [create] where no lock file is: the file is created and holds the id
    of this process; nothing else changes but the files. *)
Lemma create_fresh path w :
  files w path = None ->
  write_fault (env w) path = None ->
  exists w',
    Pidfile.create (Pidfile.new path, w)
    = (Ok tt, (Pidfile.mk path (Pidfile.Fd (next_fd w)), w'))
    /\ files w' = upd (upd (files w) path (Some "")) path (Some (str (getpid (env w))))
    /\ env w' = env w /\ log w' = log w /\ bup_dir w' = bup_dir w
    /\ fds w' = filter (fun x => negb (fst x =? next_fd w)) ((next_fd w, path) :: fds w).
Proof.
  intros Hf Hw.
  destruct (Pidfile.create (Pidfile.new path, w)) as [r [s' w']] eqn:Hc.
  unfold Pidfile.create, os_open_excl, os_write, os_close in Hc. red_monad in Hc.
  cbn [Pidfile.pidfile Pidfile.new] in Hc. rewrite Hf, Hw in Hc. red_monad in Hc.
  cbn [Pidfile.pidfd Pidfile.set_pidfd fd_path fds set_fds files set_files env] in Hc.
  rewrite Z.eqb_refl, !upd_same in Hc.
  cbn [fd_path fds set_fds files set_files] in Hc.
  rewrite Z.eqb_refl in Hc.
  injection Hc as <- <- <-. eexists. split; [reflexivity|].
  cbn [files env log bup_dir fds set_fds set_files]. repeat split.
Qed.

(** X2.  Where no lock file is and this process is alive as far as
    [_check] can tell, [create] takes the lock, and a second [create] on the
    same path, from a new [Pidfile], raises [ProcessRunningException] with
    the id of this process and leaves everything as the first one left
    it. *)
Theorem second_create_is_refused (path : string) (w : World) :
  files w path = None ->
  write_fault (env w) path = None ->
  read_fault (env w) path = None ->
  getpid (env w) <> 0 ->
  proc_entry (env w) (getpid (env w)) = true \/ kill_probe (env w) (getpid (env w)) = None ->
  fst (Pidfile.create (Pidfile.new path, w)) = Ok tt
  /\ Pidfile.create (Pidfile.new path, snd (snd (Pidfile.create (Pidfile.new path, w))))
     = (Raise (ProcessRunningException path (PidInt (getpid (env w)))),
        (Pidfile.mk path Pidfile.PyNone, snd (snd (Pidfile.create (Pidfile.new path, w))))).
Proof.
  intros Hf Hw Hr Hnz Halive.
  destruct (create_fresh path w Hf Hw) as [w' [Hc [Hfiles [Henv _]]]].
  rewrite Hc. cbn [fst snd]. split; [reflexivity|].
  apply (create_held path (str (getpid (env w))) w' (getpid (env w))).
  - rewrite Hfiles. apply upd_same.
  - now rewrite Henv.
  - apply int_of_str.
  - assumption.
  - rewrite Henv. destruct Halive as [H|H]; auto.
Qed.

Lemma second_create_is_refused_witness :
  fst (Pidfile.create (Pidfile.new lock_path, plain_world alive_env true)) = Ok tt
  /\ Pidfile.create
       (Pidfile.new lock_path,
        snd (snd (Pidfile.create (Pidfile.new lock_path, plain_world alive_env true))))
     = (Raise (ProcessRunningException lock_path (PidInt 4242)),
        (Pidfile.mk lock_path Pidfile.PyNone,
         snd (snd (Pidfile.create (Pidfile.new lock_path, plain_world alive_env true))))).
Proof.
  apply (second_create_is_refused lock_path (plain_world alive_env true));
    [reflexivity | reflexivity | reflexivity | discriminate | right; reflexivity].
Defined.

(** X3.  A lock file that [_check] does not find held is to be removed.
    When removing it fails with an error other than [EACCES], the handler
    lets the error pass, [pidfd] was never set, and [create] raises
    [AttributeError]; the lock file and everything else stay as they
    were. *)
Theorem takeover_fails_with_attribute_error (path text : string) (w : World)
    (c : Pidfile.checked) (e : errno) :
  files w path = Some text ->
  fst (Pidfile._check (Pidfile.new path, w)) = Ok c ->
  Pidfile.is_true c = false ->
  write_fault (env w) path = Some e ->
  e <> EACCES ->
  Pidfile.create (Pidfile.new path, w) = (Raise AttributeError, (Pidfile.new path, w)).
Proof.
  intros Hf Hc Htrue Hw He. rewrite (create_on_existing path text w Hf).
  pose proof (check_reads_only (Pidfile.new path) w) as Hro.
  unfold bind at 1 2.
  destruct (Pidfile._check (Pidfile.new path, w)) as [r st]. cbn [fst snd] in *.
  subst r st. rewrite Htrue.
  unfold os_remove. red_monad. rewrite Hf, Hw. destruct e; try reflexivity.
  now destruct He.
Qed.

(** The lock file names process 999, which is gone, on a file system
    mounted read-only. *)
Lemma takeover_fails_witness :
  Pidfile.create (Pidfile.new lock_path, locked_world readonly_env "999")
  = (Raise AttributeError, (Pidfile.new lock_path, locked_world readonly_env "999")).
Proof.
  apply (takeover_fails_with_attribute_error lock_path "999" _ Pidfile.RFalse EROFS);
    [reflexivity | reflexivity | reflexivity | reflexivity | discriminate].
Defined.

(** X4.  The repository exists and the lock file names a live process
    other than 0: [main] raises [ProcessRunningException] with that id out
    of [Pidfile.__enter__], the run exits with status 1, and no command was
    run and nothing changed: the world is the one [main] started in. *)
Theorem run_on_held_lock (args : Args.t) (w : World) (text : string) (pid : Z) :
  bup_dir w = true ->
  files w (Args.pidfile args) = Some text ->
  read_fault (env w) (Args.pidfile args) = None ->
  int text = Some pid ->
  pid <> 0 ->
  proc_entry (env w) pid = true \/ kill_probe (env w) pid = None
  \/ kill_probe (env w) pid = Some (OSError EPERM) ->
  main args w = (Raise (ProcessRunningException (Args.pidfile args) (PidInt pid)), w)
  /\ run args w = 1.
Proof.
  intros Hdir Hf Hr Hint Hnz Halive.
  assert (Hmain : main args w
                  = (Raise (ProcessRunningException (Args.pidfile args) (PidInt pid)), w)).
  { unfold main, main_try. unfold try_except, bind at 1 2 3 4. rewrite Hdir. cbn [negb].
    unfold ret at 1. unfold with_, Pidfile.__enter__. unfold bind at 1 2.
    rewrite (create_held (Args.pidfile args) text w pid Hf Hr Hint Hnz Halive).
    reflexivity. }
  split; [exact Hmain|]. unfold run. now rewrite Hmain.
Qed.

Lemma run_on_held_lock_witness :
  main (plain_args ["/home"] false false) (locked_world alive_env "999")
  = (Raise (ProcessRunningException lock_path (PidInt 999)), locked_world alive_env "999")
  /\ run (plain_args ["/home"] false false) (locked_world alive_env "999") = 1.
Proof.
  apply (run_on_held_lock (plain_args ["/home"] false false) (locked_world alive_env "999")
           "999" 999);
    [reflexivity | reflexivity | reflexivity | reflexivity | discriminate
    | right; left; reflexivity].
Defined.

(** ** What holds throughout [process] *)

Section Holds.
Context {S : Type} (I : S -> Prop) (Q : exn -> Prop).

Lemma holds_ret {A} (a : A) : holds I Q (ret a).
Proof. intros s Hs. split; [exact Hs | discriminate]. Qed.

Lemma holds_raise {A} (e : exn) : Q e -> holds I Q (@raise S A e).
Proof. intros He s Hs. split; [exact Hs | now intros e' [= <-]]. Qed.

Lemma holds_bind {A B} (c : M S A) (k : A -> M S B) :
  holds I Q c -> (forall a, holds I Q (k a)) -> holds I Q (bind c k).
Proof.
  intros Hc Hk s Hs. unfold bind. destruct (Hc s Hs) as [H1 H2].
  destruct (c s) as [[a|e] s1]; cbn [fst snd] in *.
  - apply Hk, H1.
  - split; [exact H1 | intros e' [= <-]; now apply H2].
Qed.

Lemma holds_try_except {A} (c : M S A) (h : exn -> M S A) :
  holds I Q c -> (forall e, Q e -> holds I Q (h e)) -> holds I Q (try_except c h).
Proof.
  intros Hc Hh s Hs. unfold try_except. destruct (Hc s Hs) as [H1 H2].
  destruct (c s) as [[a|e] s1]; cbn [fst snd] in *.
  - split; [exact H1 | discriminate].
  - apply Hh; [now apply H2 | exact H1].
Qed.

Lemma holds_with {A B} (enter : M S A) (exit : option exn -> M S bool)
    (body : A -> M S B) :
  holds I Q enter -> (forall t, holds I Q (exit t)) -> (forall x, holds I Q (body x)) ->
  holds I Q (with_ enter exit body).
Proof.
  intros He Hx Hb. unfold with_. apply holds_bind; [exact He|].
  intros x s Hs. destruct (Hb x s Hs) as [H1 H2].
  destruct (body x s) as [[b|e] s1]; cbn [fst snd] in *.
  - apply (holds_bind (exit None) (fun _ => ret (Some b))); [apply Hx | | exact H1].
    intros _. apply holds_ret.
  - apply (holds_bind (exit (Some e))
             (fun swallow : bool => if swallow then ret None else raise e));
      [apply Hx | | exact H1].
    intros [|]; [apply holds_ret | apply holds_raise; now apply H2].
Qed.

End Holds.

Section HoldsMethod.
Context {O : Type} (I : World -> Prop) (Q : exn -> Prop).

Lemma holds_lift {A} (c : M World A) :
  holds I Q c -> holds (fun s : O * World => I (snd s)) Q (lift c).
Proof.
  intros Hc [o w] Hs. unfold lift. cbn [fst snd] in *. destruct (Hc w Hs) as [H1 H2].
  destruct (c w) as [r w']. cbn [fst snd] in *. split; assumption.
Qed.

Lemma holds_self : holds (fun s : O * World => I (snd s)) Q self.
Proof. intros s Hs. split; [exact Hs | discriminate]. Qed.

Lemma holds_world : holds (fun s : O * World => I (snd s)) Q world.
Proof. intros s Hs. split; [exact Hs | discriminate]. Qed.

Lemma holds_set_self (f : O -> O) : holds (fun s : O * World => I (snd s)) Q (set_self f).
Proof. intros s Hs. split; [exact Hs | discriminate]. Qed.

End HoldsMethod.

Lemma index_cmd_is_process_command v path ex ex_rx ex_from ex_rx_from :
  process_command (Bup.index_cmd v path ex ex_rx ex_from ex_rx_from true) = true.
Proof.
  unfold Bup.index_cmd. cbn [app process_command String.eqb Ascii.eqb Bool.eqb orb andb].
  rewrite !orb_false_r. apply Nat.leb_le. rewrite !length_app. cbn [length]. lia.
Qed.

Lemma save_cmd_is_process_command v paths branch graft remote :
  process_command (Bup.save_cmd v paths branch graft remote) = true.
Proof. reflexivity. Qed.

Lemma fsck_cmd_is_process_command v remote base mode :
  Bup.fsck_base v remote = Ok base -> process_command (base ++ mode) = true.
Proof.
  unfold Bup.fsck_base. destruct (truthy remote).
  - destruct (split_char ":" _) as [|addr [|path [|x l]]]; try discriminate.
    intros [= <-]. now destruct (3 <=? v).
  - intros [= <-]. now destruct (3 <=? v).
Qed.

Lemma fsck_base_raises v remote e : Bup.fsck_base v remote = Raise e -> e = ValueError.
Proof.
  unfold Bup.fsck_base. destruct (truthy remote); [|discriminate].
  destruct (split_char ":" _) as [|addr [|path [|x l]]]; try discriminate; congruence.
Qed.

Section ThroughProcess.
Variables (I : World -> Prop) (Q : exn -> Prop).
Hypothesis I_call :
  forall cmd w, process_command cmd = true -> I w -> I (snd (check_call cmd w)).
Hypothesis I_dirs : forall x w, I w -> I (set_dirs x w).
Hypothesis Q_os : forall e, Q (OSError e).
Hypothesis Q_type : Q TypeError.
Hypothesis Q_value : Q ValueError.
Hypothesis Q_stats : forall w e, I w -> stats_fault (env w) (log w) = Some e -> Q e.

Abbreviation I' := (fun s : Snapshot.t * World => I (snd s)).

Lemma holds_check_call cmd : process_command cmd = true -> holds I Q (check_call cmd).
Proof.
  intros Hc w Hw. split; [now apply I_call|].
  rewrite check_call_result. destruct (cmd_run (env w) (log w) cmd); try discriminate.
  intros e' [= <-]. apply Q_os.
Qed.

Lemma holds_os_wait : holds I Q os_wait.
Proof.
  intros w Hw. unfold os_wait. destruct (wait_fault (env w)); cbn.
  - split; [exact Hw | intros e' [= <-]; apply Q_os].
  - split; [exact Hw | discriminate].
Qed.

Lemma holds_os_removedirs p : holds I Q (os_removedirs p).
Proof.
  intros w Hw. unfold os_removedirs.
  destruct (negb (mem p (dirs w))); cbn;
    [split; [exact Hw | intros e' [= <-]; apply Q_os]|].
  destruct (ismount p w); cbn.
  - split; [exact Hw | intros e' [= <-]; apply Q_os].
  - split; [now apply I_dirs | discriminate].
Qed.

Lemma holds_stat_isblk p : holds I Q (stat_isblk p).
Proof.
  intros w Hw. unfold stat_isblk.
  destruct (mem p (blkdevs w)); cbn; [split; [exact Hw | discriminate]|].
  destruct (mem p (dirs w)); cbn; [split; [exact Hw | discriminate]|].
  destruct (files w p); cbn.
  - split; [exact Hw | discriminate].
  - split; [exact Hw | intros e' [= <-]; apply Q_os].
Qed.

Lemma holds_os_makedirs p : holds I Q (os_makedirs p).
Proof.
  intros w Hw. unfold os_makedirs.
  destruct (mem p (dirs w) || mem p (blkdevs w))%bool; cbn;
    [split; [exact Hw | intros e' [= <-]; apply Q_os]|].
  destruct (files w p); cbn; [split; [exact Hw | intros e' [= <-]; apply Q_os]|].
  destruct (write_fault (env w) p); cbn.
  - split; [exact Hw | intros e' [= <-]; apply Q_os].
  - split; [now apply I_dirs | discriminate].
Qed.

Lemma holds_stats_call : holds I Q stats_call.
Proof.
  intros w Hw. unfold stats_call. destruct (stats_fault (env w) (log w)) eqn:E; cbn.
  - split; [exact Hw | intros e' [= <-]; eapply Q_stats; eassumption].
  - split; [exact Hw | discriminate].
Qed.

Ltac holds_step :=
  first
    [ apply holds_ret
    | apply holds_raise; solve [assumption | apply Q_os]
    | apply holds_self
    | apply holds_world
    | apply holds_set_self
    | apply holds_lift
    | apply holds_check_call;
      solve [ reflexivity | apply index_cmd_is_process_command
            | eapply fsck_cmd_is_process_command; eassumption ]
    | apply holds_os_wait
    | apply holds_os_removedirs
    | apply holds_stat_isblk
    | apply holds_os_makedirs
    | apply holds_stats_call
    | apply holds_bind; [ | intro ]
    | apply holds_try_except; [ | intros ? ? ]
    | match goal with
      | |- holds _ _ (if ?b then _ else _) => destruct b
      | |- holds _ _ (match ?x with _ => _ end) => destruct x eqn:?
      end ].

Lemma holds_make_dirs_helper p : holds I Q (make_dirs_helper p).
Proof.
  unfold make_dirs_helper. apply holds_try_except.
  - repeat holds_step.
  - intros e He. destruct e; try (now apply holds_raise).
    apply holds_bind; [intros w Hw; split; [exact Hw | discriminate]|].
    intros w. destruct (_ || _)%bool; [now apply holds_raise | apply holds_ret].
Qed.

Lemma holds_fsck v remote parity repair : holds I Q (Bup.fsck v remote parity repair).
Proof.
  unfold Bup.fsck. destruct (Bup.fsck_base v remote) as [base|e] eqn:Hbase.
  - repeat holds_step.
  - apply fsck_base_raises in Hbase. subst e. now apply holds_raise.
Qed.

Lemma holds_verify args success : holds I Q (verify args success).
Proof. unfold verify. repeat first [apply holds_fsck | holds_step]. Qed.

Lemma holds_path_body args success snapshot : holds I Q (path_body args success snapshot).
Proof.
  unfold path_body, Bup.index, Bup.save.
  repeat first
    [ apply holds_verify | apply holds_fsck
    | match goal with
      | |- holds _ _ (fun w => (Ok w, w)) => intros w Hw; split; [exact Hw | discriminate]
      end
    | holds_step ].
Qed.

Lemma holds_cleanup force : holds I' Q (LvmSnapshot.cleanup force).
Proof.
  unfold LvmSnapshot.cleanup, LvmSnapshot.mountpoint, LvmSnapshot.device,
    LvmSnapshot.snapname.
  repeat holds_step.
Qed.

Lemma holds_lvm_enter : holds I' Q LvmSnapshot.__enter__.
Proof.
  unfold LvmSnapshot.__enter__, LvmSnapshot.mountpoint, LvmSnapshot.device,
    LvmSnapshot.snapname.
  repeat first [ apply holds_cleanup | apply holds_make_dirs_helper | holds_step ].
Qed.

Lemma holds_snapshot_enter : holds I' Q snapshot_enter.
Proof. unfold snapshot_enter. repeat first [ apply holds_lvm_enter | holds_step ]. Qed.

Lemma holds_snapshot_exit t : holds I' Q (snapshot_exit t).
Proof.
  unfold snapshot_exit, snapshot_cleanup. repeat first [ apply holds_cleanup | holds_step ].
Qed.

Lemma holds_process_path args path success : holds I Q (process_path args path success).
Proof.
  unfold process_path. destruct (Snapshot.select (Args.snapshot args)) as [c|e] eqn:Hsel.
  - intros w Hw.
    pose proof (holds_with I' Q snapshot_enter snapshot_exit
                  (fun snapshot => lift (path_body args success snapshot))
                  holds_snapshot_enter holds_snapshot_exit
                  (fun x => holds_lift I Q _ (holds_path_body args success x))
                  (Snapshot.new c path (Args.size args) (Args.verbose args)
                     (Args.mountpoint args), w) Hw) as [H1 H2].
    destruct (with_ _ _ _ _) as [r [s' w']]. cbn [fst snd] in *.
    split; [exact H1|]. destruct r as [[b|]|e]; try discriminate.
    intros e' [= <-]. now apply H2.
  - unfold Snapshot.select in Hsel. destruct (find _ _); [discriminate|].
    injection Hsel as <-. now apply holds_raise.
Qed.

Lemma holds_process_loop args paths success : holds I Q (process_loop args paths success).
Proof.
  revert success. induction paths as [|p rest IH]; intros success; cbn [process_loop].
  - apply holds_ret.
  - apply holds_bind; [apply holds_process_path | intros b; apply IH].
Qed.

Lemma holds_process args : holds I Q (process args).
Proof.
  unfold process. apply holds_bind; [|intros _; apply holds_process_loop].
  destruct (Args.stats args); [apply holds_stats_call | apply holds_ret].
Qed.

End ThroughProcess.

(** ** [process] and the file system *)

Lemma cmd_effect_same_files c w : same_files w (cmd_effect c w).
Proof.
  unfold cmd_effect, same_files.
  repeat match goal with
         | |- context [if ?b then _ else _] => destruct b
         | |- context [match ?x with _ => _ end] => destruct x
         end; repeat split.
Qed.

Lemma check_call_same_files cmd w0 w :
  same_files w0 w -> same_files w0 (snd (check_call cmd w)).
Proof.
  intros [He [Hf Hd]]. unfold check_call.
  destruct (cmd_run (env w) (log w) cmd); cbn [snd]; try (now repeat split).
  destruct (cmd_effect_same_files cmd (set_log (log w ++ [cmd]) w)) as [He' [Hf' Hd']].
  unfold same_files. rewrite He', Hf', Hd'. now repeat split.
Qed.

(** X5.  [process] itself opens, writes, closes and removes nothing:
    whatever the arguments, the snapshots and the outcomes of the commands,
    and whether it returns or raises, the files and the open descriptors
    of the program are after [process] what they were before it.  (What the
    commands write is outside the model: a command changes mounts, block
    devices and the repository directory only.) *)
Theorem process_leaves_files (args : Args.t) (w : World) :
  files (snd (process args w)) = files w
  /\ fds (snd (process args w)) = fds w
  /\ env (snd (process args w)) = env w.
Proof.
  destruct (holds_process (same_files w) (fun _ => True)
              (fun cmd w' _ => check_call_same_files cmd w w')
              (fun x w' H => H) (fun _ => I) I I (fun _ _ _ _ => I) args w)
    as [[He [Hf Hd]] _]; [now repeat split|].
  now repeat split.
Qed.

(** ** The commands of [process] *)

Lemma check_call_ran_only cmd w0 w :
  process_command cmd = true -> ran_only w0 w -> ran_only w0 (snd (check_call cmd w)).
Proof.
  intros Hc [cmds [Hl Hall]]. exists (cmds ++ [cmd]). split.
  - now rewrite check_call_log, Hl, app_assoc.
  - apply Forall_app. split; [exact Hall | now constructor].
Qed.

(** X6.  Every command [process] hands to [check_call] is one of
    [lvcreate], [mount], [umount], [lvremove], [bup index] with at least two
    further arguments, [bup save], [bup fsck] and [ssh ... bup -d ... fsck];
    [bup init] and [bup index --clear] are never among them. *)
Theorem process_runs_only (args : Args.t) (w : World) :
  exists cmds,
    log (snd (process args w)) = log w ++ cmds
    /\ (forall c, In c cmds ->
        process_command c = true
        /\ c <> ["bup"; "index"; "--clear"]
        /\ forall rest, c <> "bup" :: "init" :: rest).
Proof.
  destruct (holds_process (ran_only w) (fun _ => True)
              (fun cmd w' Hc => check_call_ran_only cmd w w' Hc)
              (fun x w' H => H) (fun _ => I) I I (fun _ _ _ _ => I) args w)
    as [[cmds [Hl Hall]] _].
  { exists []. split; [now rewrite app_nil_r | constructor]. }
  exists cmds. split; [exact Hl|]. intros c Hin.
  rewrite Forall_forall in Hall. specialize (Hall c Hin).
  split; [exact Hall|]. split.
  - intros ->. discriminate Hall.
  - intros rest ->. discriminate Hall.
Qed.

(** ** The lock file over a run *)

Lemma holds_lift_object {O A} (I : World -> Prop) (Q : exn -> Prop) (o : O)
    (c : M World A) :
  holds I Q c -> holds (fun st : O * World => fst st = o /\ I (snd st)) Q (lift c).
Proof.
  intros Hc [o' w] [Ho Hs]. unfold lift. cbn [fst snd] in *. destruct (Hc w Hs) as [H1 H2].
  destruct (c w) as [r w']. cbn [fst snd] in *. repeat split; assumption.
Qed.

Lemma holds_check_call_same_files cmd w0 :
  holds (same_files w0) not_lock_held (check_call cmd).
Proof.
  intros w Hw. split; [now apply check_call_same_files|].
  rewrite check_call_result. destruct (cmd_run (env w) (log w) cmd); try discriminate.
  now intros e' [= <-].
Qed.

Lemma holds_process_same_files args w0 :
  (forall h e, stats_fault (env w0) h = Some e -> not_lock_held e) ->
  holds (same_files w0) not_lock_held (process args).
Proof.
  intros Hs. apply holds_process; try easy.
  - intros cmd w _. apply check_call_same_files.
  - intros w e [He _] H. rewrite He in H. eapply Hs, H.
Qed.

(** The body of the [with] statement of [main]. *)
Lemma holds_lock_body args (initialised : bool) (s : Pidfile.t) (w0 : World) :
  (forall h e, stats_fault (env w0) h = Some e -> not_lock_held e) ->
  holds (fun st : Pidfile.t * World => fst st = s /\ same_files w0 (snd st)) not_lock_held
    ((if (Args.clear args && negb initialised)%bool then
        ok <- lift Bup.clear_index ;;
        if negb ok then raise AttributeError else ret tt
      else ret tt) ;;
     lift (process args)).
Proof.
  intros Hs. apply holds_bind.
  - destruct (Args.clear args && negb initialised)%bool; [|apply holds_ret].
    apply holds_bind.
    + apply holds_lift_object, holds_check_call_same_files.
    + intros [|]; [apply holds_ret | now apply holds_raise].
  - intros _. now apply holds_lift_object, holds_process_same_files.
Qed.

(** [__exit__] of a lock that was taken with a descriptor other than 0:
    the lock file is removed, unless the exception is
    [ProcessRunningException]. *)
Lemma exit_removes (ty : option exn) (s : Pidfile.t) (w : World) (fd : Z) (text : string) :
  Pidfile.pidfd s = Pidfile.Fd fd ->
  fd <> 0 ->
  files w (Pidfile.pidfile s) = Some text ->
  write_fault (env w) (Pidfile.pidfile s) = None ->
  (forall e, ty = Some e -> not_lock_held e) ->
  Pidfile.__exit__ ty (s, w)
  = (Ok (match ty with None => true | Some _ => false end),
     (s, set_files (upd (files w) (Pidfile.pidfile s) None) w)).
Proof.
  intros Hfd Hnz Hf Hw Hq. apply Z.eqb_neq in Hnz.
  unfold Pidfile.__exit__, Pidfile.remove, os_remove.
  destruct ty as [e|].
  - specialize (Hq e eq_refl).
    destruct e; try contradiction; red_monad; rewrite Hfd, Hnz; red_monad;
      now rewrite Hf, Hw.
  - red_monad. now rewrite Hf, Hw.
Qed.

Lemma main_world args w : snd (main args w) = snd (main_try args w).
Proof.
  unfold main. unfold_monad.
  destruct (main_try args w) as [[[|]|e] w']; try reflexivity. now destruct e.
Qed.

(** X7.  Where no lock file is, it can be written, descriptor 0 is in use
    and gathering the statistics does not raise [ProcessRunningException],
    [main] leaves no lock file behind, whether the run returns, bails out
    or raises: the lock it took is removed again, and no other file of the
    program has changed. *)
Theorem main_leaves_files (args : Args.t) (w : World) :
  files w (Args.pidfile args) = None ->
  write_fault (env w) (Args.pidfile args) = None ->
  next_fd w <> 0 ->
  (forall h e, stats_fault (env w) h = Some e -> not_lock_held e) ->
  forall q, files (snd (main args w)) q = files w q.
Proof.
  intros Hf Hw Hnz Hs q. rewrite main_world.
  unfold main_try. unfold bind at 1 2.
  match goal with
  | |- context [(if ?b then ?x else ?y) w] =>
      assert (Hinit : same_files w (snd ((if b then x else y) w)));
      [| destruct ((if b then x else y) w) as [[initialised|e] w0]; cbn [snd] in *]
  end.
  { destruct (negb (bup_dir w)); [|now repeat split].
    unfold bind at 1. unfold Bup.init.
    match goal with
    | |- context [check_call ?c w] =>
        pose proof (check_call_same_files c w w) as H; destruct (check_call c w) as [[ok|e] w0]
    end; cbn [snd] in *; [|apply H; now repeat split].
    destruct ok; unfold_monad; cbn [snd]; apply H; now repeat split. }
  2: { destruct Hinit as [_ [-> _]]. reflexivity. }
  destruct Hinit as [He [Hfi Hd]].
  assert (Hf0 : files w0 (Args.pidfile args) = None) by now rewrite Hfi.
  assert (Hw0 : write_fault (env w0) (Args.pidfile args) = None) by now rewrite He.
  destruct (create_fresh _ w0 Hf0 Hw0) as [w1 [Hc [Hf1 [He1 _]]]].
  unfold with_, Pidfile.__enter__. unfold bind at 1 2. rewrite Hc. unfold self at 1.
  cbn [fst snd].
  set (s := Pidfile.mk (Args.pidfile args) (Pidfile.Fd (next_fd w0))).
  assert (Hs1 : forall h e, stats_fault (env w1) h = Some e -> not_lock_held e).
  { intros h e. rewrite He1, He. apply Hs. }
  match goal with
  | |- context [bind ?c ?k (s, w1)] =>
      destruct (holds_lock_body args initialised s w1 Hs1 (s, w1)) as [[Ho Hsame] Hq];
      [split; [reflexivity | now repeat split] |];
      destruct (bind c k (s, w1)) as [r [s2 w2]]
  end.
  cbn [fst snd] in Ho, Hsame, Hq. subst s2. destruct Hsame as [He2 [Hf2 _]].
  assert (Hex : forall ty, (forall e, ty = Some e -> not_lock_held e) ->
            Pidfile.__exit__ ty (s, w2)
            = (Ok (match ty with None => true | Some _ => false end),
               (s, set_files (upd (files w2) (Pidfile.pidfile s) None) w2))).
  { intros ty Hty.
    apply (exit_removes ty s w2 (next_fd w0) (str (getpid (env w0)))); auto.
    - unfold next_fd. rewrite Hd. exact Hnz.
    - rewrite Hf2, Hf1. apply upd_same.
    - rewrite He2, He1. exact Hw0. }
  assert (Hfin : files (set_files (upd (files w2) (Pidfile.pidfile s) None) w2) q
                 = files w q).
  { cbn [files set_files]. rewrite Hf2, Hf1. cbn [Pidfile.pidfile s]. unfold upd.
    destruct (String.eqb q (Args.pidfile args)) eqn:E.
    - apply String.eqb_eq in E. subst q. now rewrite Hf.
    - now rewrite Hfi. }
  destruct r as [b|e].
  - unfold bind. rewrite (Hex None) by discriminate. cbn [snd ret]. 
    destruct b; exact Hfin.
  - unfold bind. rewrite (Hex (Some e)) by (intros e' [= <-]; now apply Hq).
    cbn [snd raise]. exact Hfin.
Qed.

Lemma main_leaves_files_witness :
  files (snd (main (plain_args ["/home"] false false)
                (plain_world (plain_env no_programs) true))) lock_path
  = None.
Proof.
  apply (main_leaves_files (plain_args ["/home"] false false)
           (plain_world (plain_env no_programs) true));
    [reflexivity | reflexivity | discriminate | discriminate].
Defined.

(** ** Clearing the index *)

(** X8.  With [--clear] and a repository that is already there, a failing
    [bup index --clear] is to be logged with [logging.warninging], which
    does not exist: [main] raises [AttributeError], the interpreter exits
    with status 1, and no path is processed: the command that failed is the
    only one handed to [check_call]. *)
Theorem failed_clear_aborts (args : Args.t) (w : World) :
  bup_dir w = true ->
  Args.clear args = true ->
  files w (Args.pidfile args) = None ->
  write_fault (env w) (Args.pidfile args) = None ->
  cmd_run (env w) (log w) ["bup"; "index"; "--clear"] = ExitFail ->
  fst (main args w) = Raise AttributeError
  /\ run args w = 1
  /\ log (snd (main args w)) = log w ++ [["bup"; "index"; "--clear"]].
Proof.
  intros Hb Hc Hf Hw Hrun.
  destruct (create_fresh _ w Hf Hw) as [w1 [Hcr [Hf1 [He1 [Hl1 _]]]]].
  pose proof (check_call_result ["bup"; "index"; "--clear"] w1) as Hr.
  pose proof (check_call_log ["bup"; "index"; "--clear"] w1) as Hl.
  pose proof (check_call_same_files ["bup"; "index"; "--clear"] w1 w1) as Hs.
  rewrite He1, Hl1, Hrun in Hr. rewrite Hl1 in Hl.
  assert (Hm : exists w3,
             main_try args w = (Raise AttributeError, w3)
             /\ log w3 = log (snd (check_call ["bup"; "index"; "--clear"] w1))).
  { unfold main_try, with_, Pidfile.__enter__, Bup.clear_index. red_monad.
    rewrite Hb. cbn [negb]. red_monad. rewrite Hcr. red_monad.
    rewrite Hc. cbn [negb andb]. red_monad.
    destruct (check_call ["bup"; "index"; "--clear"] w1) as [r w2].
    cbn [fst snd] in *. subst r. cbn [negb]. red_monad.
    destruct Hs as [He2 [Hf2 _]]; [now repeat split|].
    unfold Pidfile.__exit__. red_monad. cbn [Pidfile.pidfd].
    destruct (next_fd w =? 0).
    - red_monad. now exists w2.
    - unfold Pidfile.remove, os_remove. red_monad. cbn [Pidfile.pidfile].
      rewrite Hf2, Hf1, upd_same, He2, He1, Hw. eexists. split; reflexivity. }
  destruct Hm as [w3 [Hm Hl3]]. rewrite Hl in Hl3.
  rewrite main_world. split; [|split; [|now rewrite Hm]].
  - unfold main. unfold_monad. now rewrite Hm.
  - unfold run, main. unfold_monad. now rewrite Hm.
Qed.

Lemma failed_clear_aborts_witness :
  fst (main (clear_args)
         (plain_world (plain_env all_fail) true)) = Raise AttributeError
  /\ run (clear_args)
       (plain_world (plain_env all_fail) true) = 1
  /\ log (snd (main (clear_args)
                 (plain_world (plain_env all_fail) true)))
     = [] ++ [["bup"; "index"; "--clear"]].
Proof.
  apply (failed_clear_aborts (clear_args)
           (plain_world (plain_env all_fail) true)); reflexivity.
Defined.

(** ** Parity blocks *)

(** X9.  Whether the parity blocks could be generated does not enter the
    flag of a path: without [--stats], when the turn of a path with
    [--parity] returns a flag, the same turn without [--parity] returns the
    same flag. *)
Theorem parity_keeps_flag (args : Args.t) (success : bool) (snapshot : Snapshot.t)
    (w : World) (b : bool) (w' : World) :
  Args.stats args = false ->
  path_body (set_parity true args) success snapshot w = (Ok b, w') ->
  exists w'', path_body (set_parity false args) success snapshot w = (Ok b, w'').
Proof.
  intros Hst. unfold path_body.
  change (verify (set_parity true args)) with (verify args).
  change (verify (set_parity false args)) with (verify args).
  change (branch_for (set_parity true args)) with (branch_for args).
  change (branch_for (set_parity false args)) with (branch_for args).
  cbn [set_parity Args.verbose Args.exclude Args.exclude_rx Args.exclude_from
       Args.exclude_rx_from Args.remote Args.parity Args.stats].
  rewrite Hst. unfold_monad.
  destruct (Bup.index _ _ _ _ _ _ _ w) as [[[|]|e] w1]; cbn [negb].
  - destruct (Bup.save _ _ _ _ _ w1) as [[ok|e] w2]; [|discriminate].
    destruct (verify args _ w2) as [[s|e] w3]; [|discriminate].
    destruct (Bup.fsck _ _ true false w3) as [[x|e] w4]; [|discriminate].
    intros [= <- <-]. now eexists.
  - intros [= <- <-]. now eexists.
  - discriminate.
Qed.

Lemma parity_keeps_flag_witness :
  fst (path_body parity_args true
         (Snapshot.new Snapshot.NoSnapshot "/home" "1GB" 0 None)
         (plain_world (plain_env (fails_from 2)) true)) = Ok true
  /\ exists w'',
       path_body (set_parity false parity_args) true
         (Snapshot.new Snapshot.NoSnapshot "/home" "1GB" 0 None)
         (plain_world (plain_env (fails_from 2)) true) = (Ok true, w'').
Proof.
  split; [reflexivity|].
  apply (parity_keeps_flag parity_args true
           (Snapshot.new Snapshot.NoSnapshot "/home" "1GB" 0 None)
           (plain_world (plain_env (fails_from 2)) true) true
           (snd (path_body parity_args true
                   (Snapshot.new Snapshot.NoSnapshot "/home" "1GB" 0 None)
                   (plain_world (plain_env (fails_from 2)) true))));
    reflexivity.
Defined.

(** ** What [LvmSnapshot.__enter__] leaves

    [cleanup] changes the object in its flag [exists] only, which it
    clears. *)
Lemma cleanup_object force s w :
  fst (snd (LvmSnapshot.cleanup force (s, w))) = Snapshot.set_exists false s.
Proof.
  pose proof (keeps_cleanup_snapshot force (s, w)) as H1.
  pose proof (cleanup_clears_exists force s w) as H2.
  unfold on_object, same_snapshot in H1. cbn [fst] in H1.
  destruct (fst (snd (LvmSnapshot.cleanup force (s, w)))) as [a b c d e f g h].
  cbn in H2. subst g. exact H1.
Qed.

Lemma check_call_true cmd w w' :
  check_call cmd w = (Ok true, w') -> w' = cmd_effect cmd (set_log (log w ++ [cmd]) w).
Proof. unfold check_call. destruct (cmd_run (env w) (log w) cmd); congruence. Qed.

Lemma bind_inv {S A B} (c : M S A) (k : A -> M S B) s b s' :
  bind c k s = (Ok b, s') -> exists a s1, c s = (Ok a, s1) /\ k a s1 = (Ok b, s').
Proof.
  unfold bind. destruct (c s) as [[a|e] s1]; [|discriminate]. intros H. now exists a, s1.
Qed.

Lemma lift_inv {O A} (c : M World A) (o : O) w r st :
  lift c (o, w) = (r, st) -> exists w1, c w = (r, w1) /\ st = (o, w1).
Proof.
  unfold lift. cbn [fst snd]. destruct (c w) as [r1 w1]. intros [= <- <-]. now exists w1.
Qed.

Tactic Notation "inv_bind" hyp(H) "as" ident(a) :=
  let st := fresh "st" in let H1 := fresh "Hs" in
  apply bind_inv in H as [a [st [H1 H]]].



(** ** The remote address of [fsck] *)

Lemma split_char_length sep s : length (split_char sep s) = S (count_char sep s).
Proof.
  induction s as [|c s IH]; [reflexivity|]. cbn [split_char count_char].
  destruct (Ascii.eqb c sep).
  - cbn [length]. now rewrite IH.
  - destruct (split_char sep s) as [|h t]; [discriminate|]. cbn [length] in *. exact IH.
Qed.

Lemma concat_cons sep (a b : string) (l : list string) :
  String.concat sep (a :: b :: l) = a +s+ sep +s+ String.concat sep (b :: l).
Proof. reflexivity. Qed.

(** [sep.join(s.split(sep))] is [s]. *)
Lemma split_char_join sep s :
  String.concat (String sep EmptyString) (split_char sep s) = s.
Proof.
  induction s as [|c s IH]; [reflexivity|]. cbn [split_char].
  pose proof (split_char_length sep s) as Hl.
  destruct (split_char sep s) as [|h t] eqn:Hs; [discriminate|].
  destruct (Ascii.eqb c sep) eqn:E.
  - apply Ascii.eqb_eq in E. subst c. rewrite concat_cons, IH. reflexivity.
  - destruct t as [|h' t]; rewrite <- IH; reflexivity.
Qed.

(** X11.  [Bup.fsck] unpacks a remote address into two parts at its colons.
    An address with exactly one colon gives the command
    [ssh addr bup -d path fsck], where [addr:path] is the address; with any
    other number of colons [fsck] raises [ValueError] and runs no
    command. *)
Theorem fsck_remote_address (v : Z) (r : string) (parity repair : bool) (w : World) :
  r <> "" ->
  (count_char ":" r = 1%nat ->
   exists addr path,
     r = addr +s+ ":" +s+ path
     /\ Bup.fsck_base v (Some r)
        = Ok (["ssh"; addr; "bup"; "-d"; path; "fsck"]
              ++ (if 3 <=? v then ["--verbose"] else [])))
  /\ (count_char ":" r <> 1%nat ->
      Bup.fsck v (Some r) parity repair w = (Raise ValueError, w)).
Proof.
  intros Hr.
  assert (Ht : truthy (Some r) = true).
  { cbn. destruct (String.eqb r "") eqn:E; [|reflexivity]. apply String.eqb_eq in E. contradiction. }
  pose proof (split_char_length ":" r) as Hl.
  pose proof (split_char_join ":" r) as Hj.
  split; intros Hc.
  - rewrite Hc in Hl. destruct (split_char ":" r) as [|addr [|path [|x l]]] eqn:Hs; try discriminate.
    exists addr, path. split.
    + rewrite <- Hj. reflexivity.
    + unfold Bup.fsck_base. rewrite Ht, Hs. destruct (3 <=? v); [reflexivity|]. now rewrite app_nil_r.
  - unfold Bup.fsck, Bup.fsck_base. rewrite Ht.
    destruct (split_char ":" r) as [|addr [|path [|x l]]] eqn:Hs; try reflexivity.
    cbn in Hl. congruence.
Qed.

Lemma fsck_remote_address_witness :
  (count_char ":" "backup@host:/srv/bup" = 1%nat ->
   exists addr path,
     "backup@host:/srv/bup" = addr +s+ ":" +s+ path
     /\ Bup.fsck_base 0 (Some "backup@host:/srv/bup")
        = Ok (["ssh"; addr; "bup"; "-d"; path; "fsck"]
              ++ (if 3 <=? 0 then ["--verbose"] else [])))
  /\ (count_char ":" "backup@host:/srv/bup" <> 1%nat ->
      Bup.fsck 0 (Some "backup@host:/srv/bup") false false (plain_world (plain_env all_ok) true)
      = (Raise ValueError, plain_world (plain_env all_ok) true)).
Proof.
  apply (fsck_remote_address 0 "backup@host:/srv/bup" false false
           (plain_world (plain_env all_ok) true)).
  discriminate.
Defined.

(** ** Directories *)

(** X12.  When [make_dirs_helper] returns, it returns true exactly when the
    directory was not there before, the directory is there afterwards, and
    a second call returns false and changes nothing. *)
Theorem make_dirs_helper_again (path : string) (w : World) (b : bool) (w' : World) :
  make_dirs_helper path w = (Ok b, w') ->
  b = negb (mem path (dirs w))
  /\ mem path (dirs w') = true
  /\ make_dirs_helper path w' = (Ok false, w').
Proof.
  unfold make_dirs_helper, os_makedirs. unfold_monad.
  destruct (mem path (dirs w)) eqn:Hd; cbn [orb negb errno_eqb].
  - rewrite Hd. cbn. intros [= <- <-]. rewrite Hd. cbn. rewrite Hd. auto.
  - destruct (mem path (blkdevs w)) eqn:Hb; cbn [orb negb errno_eqb].
    + rewrite Hd. cbn. discriminate.
    + destruct (files w path) eqn:Hf.
      * cbn. rewrite Hd. discriminate.
      * destruct (write_fault (env w) path) eqn:Hw.
        -- destruct e; cbn; try rewrite Hd; discriminate.
        -- intros [= <- <-]. cbn [dirs set_dirs mem existsb]. rewrite String.eqb_refl.
           cbn. rewrite String.eqb_refl. auto.
Qed.

Lemma make_dirs_helper_again_witness :
  true = negb (mem "/media/bup/vg0-home" (dirs (lvm_world (lvm_env all_ok))))
  /\ mem "/media/bup/vg0-home"
       (dirs (snd (make_dirs_helper "/media/bup/vg0-home" (lvm_world (lvm_env all_ok))))) = true
  /\ make_dirs_helper "/media/bup/vg0-home"
       (snd (make_dirs_helper "/media/bup/vg0-home" (lvm_world (lvm_env all_ok))))
     = (Ok false, snd (make_dirs_helper "/media/bup/vg0-home" (lvm_world (lvm_env all_ok)))).
Proof.
  apply (make_dirs_helper_again "/media/bup/vg0-home" (lvm_world (lvm_env all_ok)) true
           (snd (make_dirs_helper "/media/bup/vg0-home" (lvm_world (lvm_env all_ok))))).
  reflexivity.
Defined.
